(** * bfxfixgw: symbol translation table and order normalisation

    A shallow embedding of two Go source files of the gateway:

    - [service/symbol/file.go]: the file-configured symbology
      ([FileSymbology]) with its line parser and the two lookups
      [ToBitfinex] and [FromBitfinex];
    - [convert/websocket.go]: [OrderFromV1Order], the conversion of a
      v1 order record into the v2 order object.

    Go strings are byte strings and are modelled by [string]; Go maps are
    modelled by stdpp's [gmap]. *)

From Stdlib Require Import Ascii String ZArith Floats Uint63.
From stdpp Require Import base option list strings gmap fin_maps.

Local Open Scope string_scope.

(** ** The pieces of Go's [strings] package used by the parser *)

Module GoStrings.

(** [s[lo:hi]], for [lo <= hi <= len(s)]. *)
Definition slice (s : string) (lo hi : nat) : string :=
  String.substring lo (hi - lo) s.

(** [strings.HasPrefix]: [len(s) >= len(prefix) && s[:len(prefix)] == prefix]. *)
Definition HasPrefix (s pre : string) : bool :=
  (String.length pre <=? String.length s)%nat
  && String.eqb (slice s 0 (String.length pre)) pre.

(** [strings.HasSuffix]: [len(s) >= len(suffix) && s[len(s)-len(suffix):] == suffix]. *)
Definition HasSuffix (s suf : string) : bool :=
  (String.length suf <=? String.length s)%nat
  && String.eqb
       (slice s (String.length s - String.length suf) (String.length s)) suf.

(** [strings.Split(s, sep)] for a separator of one byte: the pieces of
    [s] between the occurrences of [sep], one more than there are
    occurrences. *)
Fixpoint Split (s : string) (sep : ascii) : list string :=
  match s with
  | EmptyString => [EmptyString]
  | String c rest =>
      if Ascii.eqb c sep then EmptyString :: Split rest sep
      else match Split rest sep with
           | piece :: pieces => String c piece :: pieces
           | [] => [String c EmptyString]
           end
  end.

(** Lower-casing of one byte: the letters [A]..[Z] move to [a]..[z]. *)
Definition lower_byte (c : ascii) : ascii :=
  let n := nat_of_ascii c in
  if ((65 <=? n) && (n <=? 90))%nat then ascii_of_nat (n + 32) else c.

(** [strings.ToLower].  Go lower-cases rune by rune; on the bytes below
    128 that is [lower_byte].  The parser only compares the result with
    the words [passthrough] and [true], and the two runes outside ASCII
    whose lower case is an ASCII letter give [i] and [k], which occur in
    neither word, so the byte-wise function decides those comparisons as
    Go does. *)
Fixpoint ToLower (s : string) : string :=
  match s with
  | EmptyString => EmptyString
  | String c rest => String (lower_byte c) (ToLower rest)
  end.

(** Number of occurrences of the byte [sep] in [s]. *)
Fixpoint count (s : string) (sep : ascii) : nat :=
  match s with
  | EmptyString => 0
  | String c rest => (if Ascii.eqb c sep then 1 else 0) + count rest sep
  end.

End GoStrings.

Import GoStrings.

(** ** [service/symbol/file.go] *)

(** [symbolset]: the map from Bitfinex symbol to counterparty symbol, and
    the passthrough flag. *)
Record symbolset : Type := mkSymbolset {
  symbols : gmap string string;
  passthrough : bool
}.

Definition newSymbolset : symbolset :=
  {| symbols := ∅; passthrough := false |}.

(** [symbolset.set]: [s.symbols[k] = v]. *)
Definition set (s : symbolset) (k v : string) : symbolset :=
  {| symbols := <[k := v]> (symbols s); passthrough := passthrough s |}.

(** [symbolset.get]: the value and the comma-ok flag; a missing key gives
    the zero string. *)
Definition get (s : symbolset) (k : string) : string * bool :=
  match symbols s !! k with
  | Some sym => (sym, true)
  | None => ("", false)
  end.

(** [FileSymbology] without its mutex: the name of the section being read
    and the symbol set of every counterparty. *)
Record FileSymbology : Type := mkFileSymbology {
  counterparty : string;
  counterparties : gmap string symbolset
}.

(** The test of the first [if] of [parse]. *)
Definition isHeader (line : string) : bool :=
  HasPrefix line "[" && HasSuffix line "]".

(** The body of the branch taken on a line with two fields or more: fetch
    or create the symbol set of the current counterparty, then set its
    flag or record the pair.  The set is held by pointer in Go, so the
    update is visible in the map; here it is stored back. *)
Definition record_fields (f : FileSymbology) (s0 s1 : string) : FileSymbology :=
  let symset := default newSymbolset (counterparties f !! counterparty f) in
  let symset' :=
    if String.eqb (ToLower s0) "passthrough" && String.eqb (ToLower s1) "true"
    then {| symbols := symbols symset; passthrough := true |}
    else set symset s0 s1 in
  {| counterparty := counterparty f;
     counterparties := <[counterparty f := symset']> (counterparties f) |}.

(** [FileSymbology.parse]. *)
Definition parse (f : FileSymbology) (line : string) : FileSymbology :=
  let f1 :=
    if isHeader line
    then {| counterparty := slice line 1 (String.length line - 1);
            counterparties := counterparties f |}
    else f in
  match Split line "="%char with
  | s0 :: s1 :: _ => record_fields f1 s0 s1
  | _ => f1
  end.

(** The table [NewFileSymbology] starts from: no counterparty, and the zero
    string as section name. *)
Definition emptySymbology : FileSymbology :=
  {| counterparty := ""; counterparties := ∅ |}.

(** The scanning loop of [NewFileSymbology] over the lines of the file, in
    order.  Opening and closing the file are left out: the lines are what
    [scanner.Text()] yields. *)
Definition parseLines (f : FileSymbology) (lines : list string) : FileSymbology :=
  foldl parse f lines.

Definition NewFileSymbology (lines : list string) : FileSymbology :=
  parseLines emptySymbology lines.

(** Go's [error] values built by the two lookups. *)
Inductive lookupError : Type :=
| ErrCounterparty (counterparty : string)
| ErrBitfinexSymbol (symbol counterparty : string)
| ErrSymbol (symbol counterparty : string).

(** The first key, in the order [entries], whose value is [symbol]: the
    [for ... range] loop of [ToBitfinex]. *)
Fixpoint scan (entries : list (string * string)) (symbol : string) : option string :=
  match entries with
  | [] => None
  | (bfx, cp) :: rest => if String.eqb cp symbol then Some bfx else scan rest symbol
  end.

(** Go leaves the order in which [range] visits a map unspecified.  An
    iteration order [range] lists the entries of each map, every entry
    once. *)
Definition IterationOrder (range : gmap string string → list (string * string)) : Prop :=
  ∀ m, range m ≡ₚ map_to_list m.

(** [FileSymbology.ToBitfinex], under the iteration order [range]. *)
Definition ToBitfinex (range : gmap string string → list (string * string))
    (f : FileSymbology) (symbol cp : string) : string * option lookupError :=
  match counterparties f !! cp with
  | None => ("", Some (ErrCounterparty cp))
  | Some symset =>
      if passthrough symset then (symbol, None)
      else match scan (range (symbols symset)) symbol with
           | Some bfx => (bfx, None)
           | None => ("", Some (ErrBitfinexSymbol symbol cp))
           end
  end.

(** [FileSymbology.FromBitfinex]. *)
Definition FromBitfinex (f : FileSymbology) (symbol cp : string)
  : string * option lookupError :=
  match counterparties f !! cp with
  | None => ("", Some (ErrCounterparty cp))
  | Some symset =>
      if passthrough symset then (symbol, None)
      else match get symset symbol with
           | (sym, true) => (sym, None)
           | (_, false) => ("", Some (ErrSymbol symbol cp))
           end
  end.

(** The specification calls [ToBitfinex] "ToExchange" and [FromBitfinex]
    "ToCounterparty"; "found" is a [None] error. *)


(** *** Error texts and the log

    The text of each error, as [fmt.Errorf] formats it, and the lines
    [ToBitfinex] hands to [log.Printf]. *)

(** The double-quote byte that the format strings put around a symbol. *)
Definition dquote : string := String (ascii_of_nat 34) EmptyString.

(** [err.Error()] of the errors of the two lookups. *)
Definition errorText (e : lookupError) : string :=
  match e with
  | ErrCounterparty cp => "could not find counterparty: " ++ cp
  | ErrBitfinexSymbol symbol cp =>
      "could not find Bitfinex symbol mapping " ++ dquote ++ symbol ++ dquote
      ++ " for counterparty " ++ dquote ++ cp ++ dquote
  | ErrSymbol symbol cp =>
      "could not find symbol " ++ dquote ++ symbol ++ dquote
      ++ " for counterparty " ++ dquote ++ cp ++ dquote
  end.

(** [ToBitfinex] with the lines it logs, in order: both failing branches
    call [log.Printf] with the format and arguments of the error they
    return; the other branches log nothing. *)
Definition ToBitfinexLogged (range : gmap string string → list (string * string))
    (f : FileSymbology) (symbol cp : string)
  : (string * option lookupError) * list string :=
  match counterparties f !! cp with
  | None =>
      (("", Some (ErrCounterparty cp)),
       ["could not find counterparty: " ++ cp])
  | Some symset =>
      if passthrough symset then ((symbol, None), [])
      else match scan (range (symbols symset)) symbol with
           | Some bfx => ((bfx, None), [])
           | None =>
               (("", Some (ErrBitfinexSymbol symbol cp)),
                ["could not find Bitfinex symbol mapping " ++ dquote ++ symbol
                 ++ dquote ++ " for counterparty " ++ dquote ++ cp ++ dquote])
           end
  end.

(** *** Sections without mapping lines

    [noMappingLine N cur lines] tells that, reading [lines] with the
    cursor at [cur], no line that holds a [=] is read while [N] is the
    current section.  The cursor follows the header test of [parse]. *)
Fixpoint noMappingLine (N cur : string) (lines : list string) : bool :=
  match lines with
  | [] => true
  | line :: rest =>
      let cur' :=
        if isHeader line then slice line 1 (String.length line - 1) else cur in
      (negb (String.eqb cur' N) || (count line "=" =? 0)%nat)
      && noMappingLine N cur' rest
  end.

(** ** [convert/websocket.go] *)

(** Go's [float64] is IEEE 754 binary64, which the primitive type [float]
    is (with one NaN for all of them). *)

(** The [Err] of a [*strconv.NumError]: the two ways [strconv.ParseFloat]
    fails. *)
Inductive NumError : Type :=
| ErrSyntax
| ErrRange.

(** A Go result [(value, error)] of which the caller reads the value only
    when the error is [nil]. *)
Inductive result (A : Type) : Type :=
| Ok (a : A)
| Err (e : NumError).
Arguments Ok {A} a.
Arguments Err {A} e.

#[global] Instance result_bind : MBind result :=
  λ A B k r, match r with Ok a => k a | Err e => Err e end.

Definition isErr {A : Type} (r : result A) : bool :=
  match r with Ok _ => false | Err _ => true end.

(** The conversion [int64(x)] of a [float64]: the fraction is discarded.
    Outside the range of [int64], and for NaN, Go leaves the value to the
    implementation; the minimum of [int64] is what amd64 yields. *)
Definition int64_of_float64 (x : float) : Z :=
  match Prim2SF x with
  | S754_zero _ => 0
  | S754_finite s m e =>
      let magnitude := Z.shiftl (Zpos m) e in
      let v := if s then - magnitude else magnitude in
      if (- 2 ^ 63 <=? v) && (v <? 2 ^ 63) then v else - 2 ^ 63
  | _ => - 2 ^ 63
  end%Z.

(** The conversion [float64(n)] of an [int], for [|n| < 2^63]. *)
Definition float64_of_int (n : Z) : float :=
  if (n <? 0)%Z then (- PrimFloat.of_uint63 (Uint63.of_Z (- n)))%float
  else PrimFloat.of_uint63 (Uint63.of_Z n).

(** The floats [1] and [-1] as the specification of floats writes them:
    mantissa [2^52], exponent [-52], and the sign. *)
Definition unit_sf (s : bool) : spec_float :=
  S754_finite s 4503599627370496 (-52).

(** Modelled from the spec: the fields of the v1 order record that the
    conversion reads.  The record is declared by the exchange's client
    library ([bitfinex-api-go/v1]), which is not among the sources. *)
Module bfxv1.
Record Order : Type := {
  ID : Z;
  Symbol : string;
  IsHidden : bool;
  Timestamp : string;
  Price : string;
  AvgExecutionPrice : string;
  IsCanceled : bool;
  IsLive : bool;
  Side : string;
  OriginalAmount : string;
  RemainingAmount : string;
  Type_ : string
}.
End bfxv1.

(** Modelled from the spec: the canonical order of the client library
    ([bitfinex-api-go/v2]), with the fields the conversion assigns, and
    the status and type values it names.  [OrderStatusUnset] and
    [OrderTypeUnset] stand for the zero value a field keeps when no case
    of a [switch] fires. *)
Module bitfinex.
Inductive OrderStatus : Type :=
| OrderStatusUnset
| OrderStatusActive
| OrderStatusCanceled.

Inductive OrderType : Type :=
| OrderTypeUnset
| OrderTypeMarket
| OrderTypeLimit
| OrderTypeExchangeLimit
| OrderTypeStop
| OrderTypeTrailingStop.

Record Order : Type := {
  ID : Z;
  Symbol : string;
  Hidden : bool;
  MTSCreated : Z;
  MTSUpdated : Z;
  Price : float;
  PriceAvg : float;
  Status : OrderStatus;
  AmountOrig : float;
  Amount : float;
  Type_ : OrderType
}.
End bitfinex.

(** The first [switch] of [OrderFromV1Order]: the first case that holds. *)
Definition statusOf (o : bfxv1.Order) : bitfinex.OrderStatus :=
  if bfxv1.IsCanceled o then bitfinex.OrderStatusCanceled
  else if bfxv1.IsLive o then bitfinex.OrderStatusActive
  else bitfinex.OrderStatusUnset.

(** [mul]: [1], or [-1] for the side [sell]. *)
Definition mulOf (o : bfxv1.Order) : Z :=
  if String.eqb (bfxv1.Side o) "sell" then (-1)%Z else 1%Z.

(** The second [switch], on [o.Type]. *)
Definition typeOf (o : bfxv1.Order) : bitfinex.OrderType :=
  let t := bfxv1.Type_ o in
  if String.eqb t "market" then bitfinex.OrderTypeMarket
  else if String.eqb t "limit" then bitfinex.OrderTypeLimit
  else if String.eqb t "exchange limit" then bitfinex.OrderTypeExchangeLimit
  else if String.eqb t "stop" then bitfinex.OrderTypeStop
  else if String.eqb t "trailing-stop" then bitfinex.OrderTypeTrailingStop
  else bitfinex.OrderTypeUnset.

(** [OrderFromV1Order].  [strconv.ParseFloat(s, 64)] belongs to Go's
    library and is the parameter [ParseFloat].  The five calls are made in
    the order of the source, and the first error ends the conversion. *)
Definition OrderFromV1Order (ParseFloat : string → result float)
    (o : bfxv1.Order) : result bitfinex.Order :=
  ts ← ParseFloat (bfxv1.Timestamp o);
  p ← ParseFloat (bfxv1.Price o);
  ap ← ParseFloat (bfxv1.AvgExecutionPrice o);
  let status := statusOf o in
  let mul := mulOf o in
  oa ← ParseFloat (bfxv1.OriginalAmount o);
  or ← ParseFloat (bfxv1.RemainingAmount o);
  Ok {| bitfinex.ID := bfxv1.ID o;
        bitfinex.Symbol := bfxv1.Symbol o;
        bitfinex.Hidden := bfxv1.IsHidden o;
        bitfinex.MTSCreated := int64_of_float64 ts;
        bitfinex.MTSUpdated := int64_of_float64 ts;
        bitfinex.Price := p;
        bitfinex.PriceAvg := ap;
        bitfinex.Status := status;
        bitfinex.AmountOrig := oa;
        bitfinex.Amount := (or * float64_of_int mul)%float;
        bitfinex.Type_ := typeOf o |}.

(** The five strings the conversion parses, in the order of the calls. *)
Definition numericFields (o : bfxv1.Order) : list string :=
  [bfxv1.Timestamp o; bfxv1.Price o; bfxv1.AvgExecutionPrice o;
   bfxv1.OriginalAmount o; bfxv1.RemainingAmount o].

(** *** A parser to run the conversion with

    [parseDecimal] reads the literals [[+-]digits[.digits]] and rounds
    them to the nearest [float64], ties to even, as [strconv.ParseFloat]
    does on them.  The other forms Go accepts (exponents, hexadecimal,
    [inf], [nan]) are refused with [ErrSyntax]: it is a stand-in for
    evaluating examples, and no theorem about the conversion depends on
    it. *)
Module Decimal.

Definition digit (c : ascii) : option Z :=
  let n := Z.of_nat (nat_of_ascii c) in
  if (48 <=? n)%Z && (n <=? 57)%Z then Some (n - 48)%Z else None.

(** Reads digits in front of [s]: the number read after [acc], how many
    digits it took, and what is left of [s]. *)
Fixpoint digits (s : string) (acc : Z) (n : nat) : Z * nat * string :=
  match s with
  | EmptyString => (acc, n, s)
  | String c rest =>
      match digit c with
      | Some d => digits rest (10 * acc + d)%Z (S n)
      | None => (acc, n, s)
      end
  end.

(** [num / den] rounded to the nearest [float64], with the sign [neg]. *)
Definition round_ratio (neg : bool) (num den : Z) : spec_float :=
  match num with
  | Z0 => S754_zero neg
  | _ =>
      let '(q, e, l) := SFdiv_core_binary prec emax num 0 den 0 in
      binary_round_aux prec emax neg q e l
  end.

Definition parseDecimal (s : string) : result float :=
  let '(neg, body) :=
    match s with
    | String "-" rest => (true, rest)
    | String "+" rest => (false, rest)
    | _ => (false, s)
    end in
  let '(int_part, n_int, rest) := digits body 0 0 in
  let '(num, n_frac, rest') :=
    match rest with
    | String "." frac => digits frac int_part 0
    | _ => (int_part, 0, rest)
    end in
  match rest', (n_int + n_frac)%nat with
  | EmptyString, S _ =>
      match round_ratio neg num (10 ^ Z.of_nat n_frac) with
      | S754_infinity _ => Err ErrRange
      | x => Ok (SF2Prim x)
      end
  | _, _ => Err ErrSyntax
  end.

End Decimal.

Import Decimal.

(** Orders to run the conversion on. *)
Definition sellOrder : bfxv1.Order :=
  {| bfxv1.ID := 448364249;
     bfxv1.Symbol := "btcusd";
     bfxv1.IsHidden := false;
     bfxv1.Timestamp := "1444272165.252370982";
     bfxv1.Price := "0.01";
     bfxv1.AvgExecutionPrice := "0.0";
     bfxv1.IsCanceled := false;
     bfxv1.IsLive := true;
     bfxv1.Side := "sell";
     bfxv1.OriginalAmount := "2.5";
     bfxv1.RemainingAmount := "1.5";
     bfxv1.Type_ := "exchange limit" |}.

(** Canceled and live at once. *)
Definition canceledLiveOrder : bfxv1.Order :=
  {| bfxv1.ID := 448364250;
     bfxv1.Symbol := "btcusd";
     bfxv1.IsHidden := true;
     bfxv1.Timestamp := "1444272165.252370982";
     bfxv1.Price := "240.5";
     bfxv1.AvgExecutionPrice := "0.0";
     bfxv1.IsCanceled := true;
     bfxv1.IsLive := true;
     bfxv1.Side := "buy";
     bfxv1.OriginalAmount := "2.5";
     bfxv1.RemainingAmount := "1.5";
     bfxv1.Type_ := "limit" |}.

(** Neither canceled nor live, with a side and a type the conversion does
    not know. *)
Definition oddOrder : bfxv1.Order :=
  {| bfxv1.ID := 448364251;
     bfxv1.Symbol := "ethusd";
     bfxv1.IsHidden := false;
     bfxv1.Timestamp := "1444272165";
     bfxv1.Price := "240.5";
     bfxv1.AvgExecutionPrice := "0.0";
     bfxv1.IsCanceled := false;
     bfxv1.IsLive := false;
     bfxv1.Side := "SELL";
     bfxv1.OriginalAmount := "2.5";
     bfxv1.RemainingAmount := "1.5";
     bfxv1.Type_ := "fill-or-kill" |}.

(** The sell order with a price that is no number. *)
Definition badPriceOrder : bfxv1.Order :=
  {| bfxv1.ID := 448364252;
     bfxv1.Symbol := "btcusd";
     bfxv1.IsHidden := false;
     bfxv1.Timestamp := "1444272165.252370982";
     bfxv1.Price := "n/a";
     bfxv1.AvgExecutionPrice := "0.0";
     bfxv1.IsCanceled := false;
     bfxv1.IsLive := true;
     bfxv1.Side := "sell";
     bfxv1.OriginalAmount := "2.5";
     bfxv1.RemainingAmount := "1.5";
     bfxv1.Type_ := "exchange limit" |}.

(** A sell order and a buy order whose remaining amount is written with a
    minus sign. *)
Definition negativeSellOrder : bfxv1.Order :=
  {| bfxv1.ID := 448364253;
     bfxv1.Symbol := "btcusd";
     bfxv1.IsHidden := false;
     bfxv1.Timestamp := "1444272165";
     bfxv1.Price := "240.5";
     bfxv1.AvgExecutionPrice := "0.0";
     bfxv1.IsCanceled := false;
     bfxv1.IsLive := true;
     bfxv1.Side := "sell";
     bfxv1.OriginalAmount := "2.5";
     bfxv1.RemainingAmount := "-1.5";
     bfxv1.Type_ := "limit" |}.

Definition negativeBuyOrder : bfxv1.Order :=
  {| bfxv1.ID := 448364254;
     bfxv1.Symbol := "btcusd";
     bfxv1.IsHidden := false;
     bfxv1.Timestamp := "1444272165";
     bfxv1.Price := "240.5";
     bfxv1.AvgExecutionPrice := "0.0";
     bfxv1.IsCanceled := false;
     bfxv1.IsLive := true;
     bfxv1.Side := "buy";
     bfxv1.OriginalAmount := "2.5";
     bfxv1.RemainingAmount := "-1.5";
     bfxv1.Type_ := "limit" |}.

(** *** The helpers on [interface{}]

    A value of type [interface{}] by its dynamic type: the four types the
    helpers assert, the nil interface, and [AnyOther] for a value of any
    other dynamic type (an [int], a [float32], a struct, ...), named by
    its type. *)
Inductive any : Type :=
| AnyNil
| AnyInt64 (r : Z)
| AnyFloat64 (r : float)
| AnyBool (r : bool)
| AnyString (r : string)
| AnyOther (typeName : string).

(** [Int64OrZero]: [i.(int64)], or [0]. *)
Definition Int64OrZero (i : any) : Z :=
  match i with AnyInt64 r => r | _ => 0%Z end.

(** [Float64OrZero]: [i.(float64)], or [0.0]. *)
Definition Float64OrZero (i : any) : float :=
  match i with AnyFloat64 r => r | _ => 0%float end.

(** [BoolOrFalse]: [i.(bool)], or [false]. *)
Definition BoolOrFalse (i : any) : bool :=
  match i with AnyBool r => r | _ => false end.

(** [StringOrEmpty]: [i.(string)], or the empty string. *)
Definition StringOrEmpty (i : any) : string :=
  match i with AnyString r => r | _ => "" end.
(** ** Facts about the string functions *)

Section StringFacts.

Lemma substring_0_app (a b : string) :
  String.substring 0 (String.length a) (a ++ b) = a.
Proof. induction a as [|c a IH]; simpl; [by destruct b | by rewrite IH]. Qed.

Lemma substring_0_length (b : string) :
  String.substring 0 (String.length b) b = b.
Proof. induction b as [|c b IH]; simpl; [done | by rewrite IH]. Qed.

Lemma substring_skip_app (a b : string) :
  String.substring (String.length a) (String.length b) (a ++ b) = b.
Proof.
  induction a as [|c a IH]; simpl; [apply substring_0_length | done].
Qed.

Lemma string_length_app (a b : string) :
  String.length (a ++ b) = String.length a + String.length b.
Proof. induction a as [|c a IH]; simpl; [done | by rewrite IH]. Qed.

Lemma Split_not_nil (s : string) (sep : ascii) : Split s sep ≠ [].
Proof.
  destruct s as [|c s]; simpl; [done|].
  destruct (Ascii.eqb c sep); [done|]. by destruct (Split s sep).
Qed.

(** [Split] returns one piece more than there are separators. *)
Lemma Split_length (s : string) (sep : ascii) :
  length (Split s sep) = S (count s sep).
Proof.
  induction s as [|c s IH]; simpl; [done|].
  destruct (Ascii.eqb c sep); simpl; [by rewrite IH|].
  destruct (Split s sep); simpl in *; [done | lia].
Qed.

Lemma Split_no_sep (s : string) (sep : ascii) :
  count s sep = 0 → Split s sep = [s].
Proof.
  induction s as [|c s IH]; simpl; [done|].
  destruct (Ascii.eqb c sep); simpl; [done|].
  intros H. by rewrite IH.
Qed.

(** The first piece ends at the first separator. *)
Lemma Split_app (l r : string) (sep : ascii) :
  count l sep = 0 → Split (l ++ String sep r) sep = l :: Split r sep.
Proof.
  induction l as [|c l IH]; simpl.
  - intros _. by rewrite Ascii.eqb_refl.
  - destruct (Ascii.eqb c sep); simpl; [done|].
    intros H. by rewrite IH.
Qed.

Lemma count_app (a b : string) (sep : ascii) :
  count (a ++ b) sep = count a sep + count b sep.
Proof. induction a as [|c a IH]; simpl; [done | rewrite IH; lia]. Qed.

Lemma string_app_cons (c : ascii) (a b : string) :
  String c a ++ b = String c (a ++ b).
Proof. reflexivity. Qed.

Lemma string_app_assoc (a b c : string) : (a ++ b) ++ c = a ++ (b ++ c).
Proof.
  induction a as [|x a IH]; [done|].
  by rewrite !string_app_cons, IH.
Qed.

Lemma HasPrefix_app (pre s : string) : HasPrefix (pre ++ s) pre = true.
Proof.
  unfold HasPrefix, slice. rewrite string_length_app, Nat.sub_0_r.
  rewrite substring_0_app, String.eqb_refl, andb_true_r.
  apply Nat.leb_le. lia.
Qed.

Lemma HasSuffix_app (s suf : string) : HasSuffix (s ++ suf) suf = true.
Proof.
  unfold HasSuffix, slice. rewrite string_length_app.
  replace (String.length s + String.length suf - String.length suf)
    with (String.length s) by lia.
  replace (String.length s + String.length suf - String.length s)
    with (String.length suf) by lia.
  rewrite substring_skip_app, String.eqb_refl, andb_true_r.
  apply Nat.leb_le. lia.
Qed.

Lemma isHeader_brackets (name : string) : isHeader ("[" ++ name ++ "]") = true.
Proof.
  unfold isHeader. rewrite HasPrefix_app.
  by rewrite <- string_app_assoc, HasSuffix_app.
Qed.

Lemma slice_brackets (name : string) :
  let line := "[" ++ name ++ "]" in
  slice line 1 (String.length line - 1) = name.
Proof.
  unfold slice. rewrite !string_length_app. cbn [String.length].
  replace (1 + (String.length name + 1) - 1 - 1) with (String.length name) by lia.
  rewrite string_app_cons. cbn [String.substring].
  apply (substring_0_app name "]").
Qed.

Lemma isHeader_length (line : string) :
  isHeader line = true → (2 ≤ String.length line)%nat.
Proof.
  destruct line as [|c [|d line]]; cbn [String.length]; [done| |lia].
  unfold isHeader, HasPrefix, HasSuffix, slice. cbn.
  destruct (Ascii.eqb_spec c "["); destruct (Ascii.eqb_spec c "]");
    subst; cbn; try done.
Qed.

End StringFacts.

(** ** The scenarios of the specification *)

Example parse_bloomberg :
  let f := NewFileSymbology ["[Bloomberg]"; "tBTCUSD=BXY"] in
  FromBitfinex f "tBTCUSD" "Bloomberg" = ("BXY", None)
  ∧ ToBitfinex map_to_list f "BXY" "Bloomberg" = ("tBTCUSD", None)
  ∧ ToBitfinex map_to_list f "ZZZ" "Bloomberg"
    = ("", Some (ErrBitfinexSymbol "ZZZ" "Bloomberg")).
Proof. vm_compute. done. Qed.


(** ** The parser, line by line *)

Section ParserFacts.

Implicit Types (f : FileSymbology) (line : string) (lines : list string).

(** A line without [=] has one field: it can only move the cursor. *)
Lemma parse_no_eq f line :
  count line "=" = 0 →
  counterparties (parse f line) = counterparties f.
Proof.
  intros H. unfold parse. rewrite (Split_no_sep _ _ H).
  by destruct (isHeader line).
Qed.

Lemma parse_header_no_eq f name :
  count name "=" = 0 →
  parse f ("[" ++ name ++ "]")
  = {| counterparty := name; counterparties := counterparties f |}.
Proof.
  intros H. unfold parse.
  rewrite isHeader_brackets, slice_brackets, Split_no_sep; [done|].
  rewrite !count_app, H. reflexivity.
Qed.

Lemma parse_not_header_cursor f line :
  isHeader line = false → counterparty (parse f line) = counterparty f.
Proof.
  intros H. unfold parse. rewrite H.
  by destruct (Split line "=") as [|s0 [|s1 rest]].
Qed.

(** A line with [=] has two fields at least. *)
Lemma Split_two_fields line :
  count line "=" ≠ 0 → ∃ s0 s1 rest, Split line "=" = s0 :: s1 :: rest.
Proof.
  intros H. pose proof (Split_length line "=") as Hlen.
  destruct (Split line "=") as [|s0 [|s1 rest]]; simpl in Hlen; [lia..|].
  by exists s0, s1, rest.
Qed.

Lemma record_fields_cursor f s0 s1 :
  counterparty (record_fields f s0 s1) = counterparty f.
Proof. done. Qed.

Lemma record_fields_current f s0 s1 :
  is_Some (counterparties (record_fields f s0 s1) !! counterparty f).
Proof. unfold record_fields. cbn. rewrite lookup_insert_eq. eauto. Qed.

Lemma record_fields_other f s0 s1 cp :
  cp ≠ counterparty f →
  counterparties (record_fields f s0 s1) !! cp = counterparties f !! cp.
Proof. intros H. unfold record_fields. cbn. by rewrite lookup_insert_ne. Qed.

Lemma parseLines_app f lines more :
  parseLines f (lines ++ more)%list = parseLines (parseLines f lines) more.
Proof. apply foldl_app. Qed.

Lemma parseLines_no_eq lines : ∀ f,
  Forall (λ line, count line "=" = 0) lines →
  counterparties (parseLines f lines) = counterparties f.
Proof.
  induction lines as [|line lines IH]; intros f Hall; [done|].
  inversion_clear Hall as [|? ? Hline Hrest]. cbn.
  unfold parseLines in IH. rewrite (IH _ Hrest). by apply parse_no_eq.
Qed.

(** Without a header the cursor stays at the zero string, and that is
    the only counterparty a line can create. *)
Lemma parseLines_no_header lines : ∀ f,
  Forall (λ line, isHeader line = false) lines →
  counterparty f = "" →
  counterparty (parseLines f lines) = ""
  ∧ (∀ cp, cp ≠ "" →
       counterparties (parseLines f lines) !! cp = counterparties f !! cp)
  ∧ (is_Some (counterparties (parseLines f lines) !! "")
     ↔ is_Some (counterparties f !! "")
       ∨ Exists (λ line, count line "=" ≠ 0) lines).
Proof.
  induction lines as [|line lines IH]; intros f Hall Hcur.
  - cbn. split_and!; [done..|]. rewrite Exists_nil. tauto.
  - inversion_clear Hall as [|? ? Hline Hrest].
    assert (counterparty (parse f line) = "") as Hcur'
      by by rewrite parse_not_header_cursor.
    destruct (IH (parse f line) Hrest Hcur') as (IH1 & IH2 & IH3).
    change (parseLines f (line :: lines)) with (parseLines (parse f line) lines).
    split_and!; [done| |].
    + intros cp Hcp. rewrite (IH2 cp Hcp). unfold parse. rewrite Hline.
      destruct (Split line "=") as [|s0 [|s1 rest]]; [done..|].
      apply record_fields_other. congruence.
    + rewrite IH3, Exists_cons. 
      destruct (decide (count line "=" = 0)) as [Hz|Hnz].
      * rewrite (parse_no_eq _ _ Hz). tauto.
      * destruct (Split_two_fields _ Hnz) as (s0 & s1 & rest & Hs).
        assert (is_Some (counterparties (parse f line) !! "")) as Hsome.
        { unfold parse. rewrite Hline, Hs, <- Hcur.
          apply record_fields_current. }
        tauto.
Qed.

End ParserFacts.

(** ** The parser: what is kept, and when a counterparty appears *)

(** The mapping branch leaves the cursor where the header test put it. *)
Lemma parse_cursor (f : FileSymbology) (line : string) :
  counterparty (parse f line)
  = if isHeader line then slice line 1 (String.length line - 1)
    else counterparty f.
Proof.
  unfold parse.
  by destruct (isHeader line), (Split line "=") as [|s0 [|s1 rest]].
Qed.

(** One line never deletes: a counterparty stays, its passthrough flag
    stays set, and the Bitfinex symbols it maps stay mapped. *)
Lemma parse_keeps (f : FileSymbology) (line cp : string) (s : symbolset) :
  counterparties f !! cp = Some s →
  ∃ s', counterparties (parse f line) !! cp = Some s'
        ∧ (passthrough s = true → passthrough s' = true)
        ∧ (∀ k, is_Some (symbols s !! k) → is_Some (symbols s' !! k)).
Proof.
  intros Hcp. unfold parse.
  set (f1 := if isHeader line then _ else f).
  assert (counterparties f1 = counterparties f) as Hf1
    by (subst f1; by destruct (isHeader line)).
  destruct (Split line "=") as [|s0 [|s1 rest]].
  1,2: exists s; by rewrite Hf1.
  unfold record_fields. cbn. rewrite Hf1.
  destruct (decide (counterparty f1 = cp)) as [->|Hne].
  - rewrite lookup_insert_eq, Hcp. cbn. eexists. split; [done|].
    destruct (_ && _); cbn; [done|]. split; [done|].
    intros k Hk. destruct (decide (s0 = k)) as [->|Hk'].
    + rewrite lookup_insert_eq. by eexists.
    + by rewrite lookup_insert_ne.
  - rewrite lookup_insert_ne by done. by exists s.
Qed.

Lemma parseLines_keeps_key (lines : list string) (f : FileSymbology) (cp : string) :
  is_Some (counterparties f !! cp) →
  is_Some (counterparties (parseLines f lines) !! cp).
Proof.
  revert f. induction lines as [|line lines IH]; intros f [s Hs]; [by exists s|].
  destruct (parse_keeps f line cp s Hs) as (s' & Hs' & _).
  apply (IH (parse f line)). by exists s'.
Qed.

(** A counterparty that the table lacks is still lacking after further
    lines exactly when none of them, holding a [=], was read while it was
    the current section. *)
Lemma parseLines_absent (N : string) (lines : list string) : ∀ f,
  counterparties f !! N = None →
  counterparties (parseLines f lines) !! N = None
  ↔ noMappingLine N (counterparty f) lines = true.
Proof.
  induction lines as [|line lines IH]; intros f Hnone; [done|].
  change (parseLines f (line :: lines)) with (parseLines (parse f line) lines).
  cbn [noMappingLine]. rewrite <- (parse_cursor f line).
  destruct (decide (count line "=" = 0)) as [Hz|Hnz].
  - rewrite Hz, orb_true_r, andb_true_l. apply IH.
    by rewrite (parse_no_eq _ _ Hz).
  - rewrite (proj2 (Nat.eqb_neq _ _) Hnz), orb_false_r.
    destruct (String.eqb_spec (counterparty (parse f line)) N) as [HN|HN]; cbn.
    + split; [|done]. intros Habs.
      assert (is_Some (counterparties (parse f line) !! N)) as Hsome.
      { destruct (Split_two_fields _ Hnz) as (s0 & s1 & rest & Hs).
        rewrite <- HN. unfold parse. rewrite Hs.
        rewrite record_fields_cursor. apply record_fields_current. }
      apply (parseLines_keeps_key lines) in Hsome.
      rewrite Habs in Hsome. by destruct Hsome.
    + apply IH. rewrite <- Hnone. unfold parse.
      destruct (Split line "=") as [|s0 [|s1 rest]] eqn:Hs;
        [by destruct (isHeader line)..|].
      rewrite record_fields_other; [by destruct (isHeader line)|].
      intros ->. apply HN. unfold parse. by rewrite Hs.
Qed.

(** ** The lookups *)

Section LookupFacts.

Implicit Types (entries : list (string * string)) (m : gmap string string).

Lemma scan_Some entries symbol bfx :
  scan entries symbol = Some bfx → (bfx, symbol) ∈ entries.
Proof.
  induction entries as [|[k v] entries IH]; cbn; [done|].
  destruct (String.eqb_spec v symbol) as [->|Hne].
  - intros [= ->]. left.
  - intros H. right. by apply IH.
Qed.

Lemma scan_None entries symbol :
  scan entries symbol = None ↔ ∀ bfx, (bfx, symbol) ∉ entries.
Proof.
  induction entries as [|[k v] entries IH]; cbn.
  - split; [|done]. intros _ bfx. apply not_elem_of_nil.
  - destruct (String.eqb_spec v symbol) as [->|Hne].
    + split; [done|]. intros H. destruct (H k). left.
    + rewrite IH. split.
      * intros H bfx [[= -> ->]|Hin]%elem_of_cons; [done|]. by apply (H bfx).
      * intros H bfx Hin. apply (H bfx). by right.
Qed.

(** Whatever the iteration order, the loop sees exactly the pairs of the
    map. *)
Lemma elem_of_range range m bfx cp :
  IterationOrder range → (bfx, cp) ∈ range m ↔ m !! bfx = Some cp.
Proof. intros Hrange. by rewrite (Hrange m), elem_of_map_to_list. Qed.

Lemma scan_range_Some range m symbol bfx :
  IterationOrder range →
  scan (range m) symbol = Some bfx → m !! bfx = Some symbol.
Proof.
  intros Hrange H%scan_Some. by apply (elem_of_range range) in H.
Qed.

Lemma scan_range_is_Some range m symbol bfx :
  IterationOrder range →
  m !! bfx = Some symbol → is_Some (scan (range m) symbol).
Proof.
  intros Hrange H.
  destruct (scan (range m) symbol) as [k|] eqn:Hscan; [by eexists|].
  rewrite scan_None in Hscan. destruct (Hscan bfx).
  by apply (elem_of_range range).
Qed.

Lemma scan_range_None range m symbol :
  IterationOrder range →
  (∀ bfx, m !! bfx ≠ Some symbol) → scan (range m) symbol = None.
Proof.
  intros Hrange H. apply scan_None. intros bfx Hin.
  apply (elem_of_range range) in Hin; [|done]. by destruct (H bfx).
Qed.

Lemma IterationOrder_map_to_list : IterationOrder map_to_list.
Proof. by intros m. Qed.

End LookupFacts.

(** ** Section headers and the creation of counterparties *)

(** C1, as stated, fails: after the single header line [[N]] the table has
    no entry for [N], and a lookup reports the counterparty as unknown. *)
Lemma header_only_has_no_entry :
  let f := NewFileSymbology ["[N]"] in
  counterparties f !! "N" ≠ Some newSymbolset
  ∧ counterparties f !! "N" = None
  ∧ FromBitfinex f "tBTCUSD" "N" = ("", Some (ErrCounterparty "N"))
  ∧ ToBitfinex map_to_list f "BXY" "N" = ("", Some (ErrCounterparty "N")).
Proof. vm_compute. split_and!; done. Qed.

(** C1, amended: a header line [[N]] (with no [=] in [N]) creates no
    entry.  When no mapping line follows for that section, that is when
    no line that holds a [=] is read while [N] is the current section,
    then, unless an earlier part of the file created it, [N] is not a key
    of [counterparties] after parsing, whatever the lines of the other
    sections are, and both lookups report the counterparty as unknown.
    The entry appears with the first line holding a [=] that is read
    while [N] is the current section: when there is one, [N] is a key. *)
Theorem header_alone_creates_no_entry
    (before after : list string) (N : string)
    (range : gmap string string → list (string * string)) :
  count N "=" = 0 →
  counterparties (NewFileSymbology before) !! N = None →
  let f := NewFileSymbology (before ++ ["[" +:+ N +:+ "]"] ++ after)%list in
  if noMappingLine N N after
  then counterparties f !! N = None
       ∧ (∀ s, ToBitfinex range f s N = ("", Some (ErrCounterparty N)))
       ∧ (∀ s, FromBitfinex f s N = ("", Some (ErrCounterparty N)))
  else is_Some (counterparties f !! N).
Proof.
  intros HN Hbefore f.
  assert (counterparties f !! N = None ↔ noMappingLine N N after = true)
    as Hiff.
  { subst f. unfold NewFileSymbology. rewrite !parseLines_app. cbn.
    rewrite (parse_header_no_eq _ _ HN).
    by apply (parseLines_absent N after
                {| counterparty := N;
                   counterparties :=
                     counterparties (parseLines emptySymbology before) |}). }
  destruct (noMappingLine N N after).
  - assert (counterparties f !! N = None) as Hnone by by apply Hiff.
    split_and!; [done| |]; intros s.
    + unfold ToBitfinex. by rewrite Hnone.
    + unfold FromBitfinex. by rewrite Hnone.
  - destruct (counterparties f !! N) as [s|]; [by exists s|].
    by destruct Hiff as [Hiff _]; specialize (Hiff eq_refl).
Qed.

Lemma header_alone_creates_no_entry_witness :
  (let f := NewFileSymbology
              (["[A]"; "tBTCUSD=BXY"]
               ++ ["[" +:+ "B" +:+ "]"]
               ++ ["no mapping here"; "[M]"; "tETHUSD=EXY"])%list in
   counterparties f !! "B" = None
   ∧ (∀ s, ToBitfinex map_to_list f s "B" = ("", Some (ErrCounterparty "B")))
   ∧ (∀ s, FromBitfinex f s "B" = ("", Some (ErrCounterparty "B"))))
  ∧ (let f := NewFileSymbology
                (["[A]"; "tBTCUSD=BXY"]
                 ++ ["[" +:+ "B" +:+ "]"]
                 ++ ["[M]"; "tETHUSD=EXY"; "[B]"; "tLTCUSD=LXY"])%list in
     is_Some (counterparties f !! "B")).
Proof.
  split.
  - exact (header_alone_creates_no_entry
             ["[A]"; "tBTCUSD=BXY"] ["no mapping here"; "[M]"; "tETHUSD=EXY"]
             "B" map_to_list eq_refl eq_refl).
  - exact (header_alone_creates_no_entry
             ["[A]"; "tBTCUSD=BXY"] ["[M]"; "tETHUSD=EXY"; "[B]"; "tLTCUSD=LXY"]
             "B" map_to_list eq_refl eq_refl).
Defined.

(** The entry of a section is created by its first line with two fields. *)
Lemma first_mapping_creates_entry (f : FileSymbology) (N k v : string) :
  count N "=" = 0 → count k "=" = 0 → count v "=" = 0 →
  isHeader (k ++ "=" ++ v) = false →
  counterparties f !! N = None →
  String.eqb (ToLower k) "passthrough" && String.eqb (ToLower v) "true" = false →
  counterparties (parseLines f ["[" ++ N ++ "]"; k ++ "=" ++ v]) !! N
  = Some (set newSymbolset k v).
Proof.
  intros HN Hk Hv Hhead Hnone Hpass. cbn.
  rewrite (parse_header_no_eq _ _ HN). unfold parse. rewrite Hhead.
  change ("=" ++ v) with (String "="%char v).
  rewrite (Split_app _ _ _ Hk), (Split_no_sep _ _ Hv).
  unfold record_fields. cbn. rewrite Hpass, Hnone. cbn.
  by rewrite lookup_insert_eq.
Qed.

(** ** Lines with several [=] *)

(** C2, as stated, fails: the line [a=b=c] is not a header and holds two
    [=], yet parsing it changes the table: it maps [a] to [b]. *)
Lemma two_delimiters_change_table :
  let f := NewFileSymbology ["[B]"] in
  isHeader "a=b=c" = false
  ∧ count "a=b=c" "=" = 2
  ∧ parse f "a=b=c" ≠ f
  ∧ FromBitfinex f "a" "B" = ("", Some (ErrCounterparty "B"))
  ∧ FromBitfinex (parse f "a=b=c") "a" "B" = ("b", None).
Proof.
  cbv zeta. split_and!; try (vm_compute; reflexivity).
  intros H. apply (f_equal (λ f, counterparties f !! "B")) in H.
  vm_compute in H. discriminate H.
Qed.

(** C2, amended: a non-header line [l=r=rest] with more than one [=] is
    not ignored.  It is handled by the branch of the mapping lines with
    its first two fields, [l] and [r]: the current counterparty gets an
    entry, with its passthrough flag set or the pair [(l, r)] recorded,
    and what follows the second [=] is dropped.  That is what the line
    [l=r] does, when it is not a header either. *)
Theorem extra_fields_are_dropped (f : FileSymbology) (l r rest : string) :
  count l "=" = 0 →
  count r "=" = 0 →
  isHeader (l ++ "=" ++ r ++ "=" ++ rest) = false →
  parse f (l ++ "=" ++ r ++ "=" ++ rest) = record_fields f l r
  ∧ is_Some (counterparties (parse f (l ++ "=" ++ r ++ "=" ++ rest))
             !! counterparty f)
  ∧ (isHeader (l ++ "=" ++ r) = false →
     parse f (l ++ "=" ++ r ++ "=" ++ rest) = parse f (l ++ "=" ++ r)).
Proof.
  intros Hl Hr Hhead.
  assert (parse f (l ++ "=" ++ r ++ "=" ++ rest) = record_fields f l r) as Heq.
  { unfold parse. rewrite Hhead.
    change ("=" ++ r ++ "=" ++ rest) with (String "="%char (r ++ String "="%char rest)).
    by rewrite (Split_app _ _ _ Hl), (Split_app _ _ _ Hr). }
  split_and!; [done| |].
  - rewrite Heq. apply record_fields_current.
  - intros Hhead'. rewrite Heq. unfold parse. rewrite Hhead'.
    change ("=" ++ r) with (String "="%char r).
    by rewrite (Split_app _ _ _ Hl), (Split_no_sep _ _ Hr).
Qed.

Lemma extra_fields_are_dropped_witness :
  let f := NewFileSymbology ["[Bloomberg]"] in
  parse f "tBTCUSD=BXY=ignored" = record_fields f "tBTCUSD" "BXY"
  ∧ is_Some (counterparties (parse f "tBTCUSD=BXY=ignored") !! "Bloomberg")
  ∧ parse f "tBTCUSD=BXY=ignored" = parse f "tBTCUSD=BXY".
Proof.
  destruct (extra_fields_are_dropped
              (NewFileSymbology ["[Bloomberg]"]) "tBTCUSD" "BXY" "ignored")
    as (Hfields & Hentry & Hsame); [reflexivity..|].
  split; [exact Hfields|]. split; [exact Hentry|].
  apply Hsame. reflexivity.
Defined.

(** ** Lines before the first header *)

(** C3, as stated, fails: the mapping line [a=b], with no header before
    it, creates the counterparty named by the empty string. *)
Lemma mapping_before_header_creates_entry :
  let f := NewFileSymbology ["a=b"] in
  isHeader "a=b" = false
  ∧ counterparties f ≠ ∅
  ∧ counterparties f !! "" = Some (set newSymbolset "a" "b")
  ∧ FromBitfinex f "a" "" = ("b", None).
Proof.
  cbv zeta. split_and!; try (vm_compute; reflexivity).
  intros H. apply (f_equal (λ m, m !! "")) in H.
  vm_compute in H. discriminate H.
Qed.

(** C3, amended: while no header has been read the cursor is the empty
    string, so the mapping lines read so far are filed under the
    counterparty named by the empty string.  After parsing lines that
    hold no header, [counterparties] has no key other than the empty
    string, and it has that key exactly when one of the lines holds
    a [=]. *)
Theorem no_header_only_empty_name (lines : list string) :
  Forall (λ line, isHeader line = false) lines →
  let f := NewFileSymbology lines in
  counterparty f = ""
  ∧ (∀ cp, is_Some (counterparties f !! cp) → cp = "")
  ∧ (is_Some (counterparties f !! "")
     ↔ Exists (λ line, count line "=" ≠ 0) lines).
Proof.
  intros Hall f.
  destruct (parseLines_no_header lines emptySymbology Hall eq_refl)
    as (Hcur & Hother & Hempty).
  split_and!; [done| |].
  - intros cp Hsome. destruct (decide (cp = "")) as [|Hne]; [done|].
    subst f. unfold NewFileSymbology in Hsome.
    rewrite (Hother cp Hne) in Hsome. cbn in Hsome.
    rewrite lookup_empty in Hsome. by destruct Hsome.
  - subst f. unfold NewFileSymbology. rewrite Hempty. cbn.
    rewrite lookup_empty. split; [|by right].
    intros [[? [=]]|H]; done.
Qed.

Lemma no_header_only_empty_name_witness :
  let f := NewFileSymbology ["comment"; "tBTCUSD=BXY"; "passthrough=maybe"] in
  counterparty f = ""
  ∧ (∀ cp, is_Some (counterparties f !! cp) → cp = "")
  ∧ (is_Some (counterparties f !! "")
     ↔ Exists (λ line, count line "=" ≠ 0)
              ["comment"; "tBTCUSD=BXY"; "passthrough=maybe"]).
Proof.
  apply (no_header_only_empty_name ["comment"; "tBTCUSD=BXY"; "passthrough=maybe"]).
  repeat constructor.
Defined.

(** ** The two directions of translation *)

(** C4, as stated, fails: with two Bitfinex symbols mapped to the same
    counterparty symbol, [ToBitfinex] cannot return both.  Whatever the
    order in which the map is visited, one of the configured pairs is not
    translated back to its Bitfinex symbol. *)
Lemma shared_counterparty_symbol_no_round_trip :
  let f := NewFileSymbology ["[B]"; "tBTCUSD=X"; "tETHUSD=X"] in
  ∃ symset,
    counterparties f !! "B" = Some symset
    ∧ passthrough symset = false
    ∧ symbols symset !! "tBTCUSD" = Some "X"
    ∧ symbols symset !! "tETHUSD" = Some "X"
    ∧ ∀ range,
        ¬ (ToBitfinex range f "X" "B" = ("tBTCUSD", None)
           ∧ ToBitfinex range f "X" "B" = ("tETHUSD", None)).
Proof.
  cbv zeta. eexists. split; [vm_compute; reflexivity|].
  split_and!; try (vm_compute; reflexivity).
  intros range [H1 H2]. rewrite H1 in H2. discriminate H2.
Qed.

(** C4, amended: for a counterparty [cp] without passthrough and a pair
    [(ex, cp_sym)] of its symbol set, [FromBitfinex ex cp] returns
    [cp_sym], found; [ToBitfinex cp_sym cp] returns, found, some Bitfinex
    symbol that the set maps to [cp_sym], and it returns [ex] when no
    other Bitfinex symbol of the set is mapped to [cp_sym]. *)
Theorem round_trip_up_to_shared_values
    (range : gmap string string → list (string * string))
    (f : FileSymbology) (cp ex cp_sym : string) (symset : symbolset) :
  IterationOrder range →
  counterparties f !! cp = Some symset →
  passthrough symset = false →
  symbols symset !! ex = Some cp_sym →
  FromBitfinex f ex cp = (cp_sym, None)
  ∧ (∃ ex', symbols symset !! ex' = Some cp_sym
            ∧ ToBitfinex range f cp_sym cp = (ex', None))
  ∧ ((∀ ex', symbols symset !! ex' = Some cp_sym → ex' = ex) →
     ToBitfinex range f cp_sym cp = (ex, None)).
Proof.
  intros Hrange Hcp Hpass Hpair.
  assert (∃ ex', symbols symset !! ex' = Some cp_sym
                 ∧ ToBitfinex range f cp_sym cp = (ex', None)) as Hback.
  { destruct (scan_range_is_Some range _ _ _ Hrange Hpair) as [ex' Hscan].
    exists ex'. split; [by apply (scan_range_Some range)|].
    unfold ToBitfinex. by rewrite Hcp, Hpass, Hscan. }
  split_and!; [|done|].
  - unfold FromBitfinex, get. by rewrite Hcp, Hpass, Hpair.
  - intros Huniq. destruct Hback as (ex' & Hex' & Hto).
    by rewrite <- (Huniq ex' Hex').
Qed.

Lemma round_trip_up_to_shared_values_witness :
  let f := NewFileSymbology ["[Bloomberg]"; "tBTCUSD=BXY"; "tETHUSD=EXY"] in
  FromBitfinex f "tBTCUSD" "Bloomberg" = ("BXY", None)
  ∧ ToBitfinex map_to_list f "BXY" "Bloomberg" = ("tBTCUSD", None).
Proof.
  destruct (round_trip_up_to_shared_values map_to_list
              (NewFileSymbology ["[Bloomberg]"; "tBTCUSD=BXY"; "tETHUSD=EXY"])
              "Bloomberg" "tBTCUSD" "BXY"
              (set (set newSymbolset "tBTCUSD" "BXY") "tETHUSD" "EXY"))
    as (Hfrom & _ & Hto).
  - apply IterationOrder_map_to_list.
  - vm_compute. reflexivity.
  - reflexivity.
  - vm_compute. reflexivity.
  - split; [exact Hfrom|]. apply Hto. intros ex' H. cbn in H.
    apply lookup_insert_Some in H as [[_ [=]]|[_ H]].
    apply lookup_insert_Some in H as [[<- _]|[_ H]]; [reflexivity|].
    rewrite lookup_empty in H. discriminate H.
Defined.

(** C5: for a counterparty whose symbol set has the passthrough flag,
    both lookups return their argument, found, whatever the entries of
    the set and whatever the string (the empty one included). *)
Theorem passthrough_returns_input
    (range : gmap string string → list (string * string))
    (f : FileSymbology) (cp : string) (symset : symbolset) (s : string) :
  counterparties f !! cp = Some symset →
  passthrough symset = true →
  ToBitfinex range f s cp = (s, None) ∧ FromBitfinex f s cp = (s, None).
Proof.
  intros Hcp Hpass. unfold ToBitfinex, FromBitfinex.
  by rewrite Hcp, Hpass.
Qed.

Lemma passthrough_returns_input_witness :
  let f := NewFileSymbology ["[Reuters]"; "tBTCUSD=BXY"; "PassThrough=TRUE"] in
  ToBitfinex map_to_list f "tETHUSD" "Reuters" = ("tETHUSD", None)
  ∧ FromBitfinex f "tETHUSD" "Reuters" = ("tETHUSD", None).
Proof.
  apply (passthrough_returns_input map_to_list
           (NewFileSymbology ["[Reuters]"; "tBTCUSD=BXY"; "PassThrough=TRUE"])
           "Reuters"
           {| symbols := {["tBTCUSD" := "BXY"]}; passthrough := true |}).
  - vm_compute. reflexivity.
  - reflexivity.
Defined.

(** C6: a counterparty that is not a key of [counterparties] makes both
    lookups return the zero string with an error, whatever the symbol; so
    does, for a counterparty without passthrough, a symbol that has no
    entry in the direction asked: no Bitfinex symbol mapped to it for
    [ToBitfinex], no mapping of it for [FromBitfinex].  The lookups are
    total functions, so neither can panic. *)
Theorem unknown_is_reported_not_found
    (range : gmap string string → list (string * string))
    (f : FileSymbology) (s cp : string) :
  IterationOrder range →
  (counterparties f !! cp = None →
   ToBitfinex range f s cp = ("", Some (ErrCounterparty cp))
   ∧ FromBitfinex f s cp = ("", Some (ErrCounterparty cp)))
  ∧ (∀ symset,
       counterparties f !! cp = Some symset →
       passthrough symset = false →
       ((∀ ex, symbols symset !! ex ≠ Some s) →
        ToBitfinex range f s cp = ("", Some (ErrBitfinexSymbol s cp)))
       ∧ (symbols symset !! s = None →
          FromBitfinex f s cp = ("", Some (ErrSymbol s cp)))).
Proof.
  intros Hrange. split.
  - intros Hnone. unfold ToBitfinex, FromBitfinex. by rewrite Hnone.
  - intros symset Hcp Hpass. split.
    + intros Hno. unfold ToBitfinex.
      by rewrite Hcp, Hpass, (scan_range_None range _ _ Hrange Hno).
    + intros Hno. unfold FromBitfinex, get. by rewrite Hcp, Hpass, Hno.
Qed.

Lemma unknown_is_reported_not_found_witness :
  let f := NewFileSymbology ["[Bloomberg]"; "tBTCUSD=BXY"] in
  (ToBitfinex map_to_list f "BXY" "Reuters" = ("", Some (ErrCounterparty "Reuters"))
   ∧ FromBitfinex f "tBTCUSD" "Reuters" = ("", Some (ErrCounterparty "Reuters")))
  ∧ ToBitfinex map_to_list f "ZZZ" "Bloomberg"
    = ("", Some (ErrBitfinexSymbol "ZZZ" "Bloomberg"))
  ∧ FromBitfinex f "ZZZ" "Bloomberg" = ("", Some (ErrSymbol "ZZZ" "Bloomberg")).
Proof.
  cbv zeta. split.
  - destruct (unknown_is_reported_not_found map_to_list
                (NewFileSymbology ["[Bloomberg]"; "tBTCUSD=BXY"]) "BXY" "Reuters"
                IterationOrder_map_to_list) as [Hcp _].
    destruct (unknown_is_reported_not_found map_to_list
                (NewFileSymbology ["[Bloomberg]"; "tBTCUSD=BXY"]) "tBTCUSD" "Reuters"
                IterationOrder_map_to_list) as [Hcp' _].
    split; [apply Hcp | apply Hcp']; vm_compute; reflexivity.
  - destruct (unknown_is_reported_not_found map_to_list
                (NewFileSymbology ["[Bloomberg]"; "tBTCUSD=BXY"]) "ZZZ" "Bloomberg"
                IterationOrder_map_to_list) as [_ Hsym].
    destruct (Hsym (set newSymbolset "tBTCUSD" "BXY")) as [Hto Hfrom].
    + vm_compute. reflexivity.
    + reflexivity.
    + split; [apply Hto | apply Hfrom].
      * intros ex H. cbn in H.
        apply lookup_insert_Some in H as [[_ [=]]|[_ H]].
        rewrite lookup_empty in H. discriminate H.
      * vm_compute. reflexivity.
Defined.

(** ** Multiplying a [float64] by [float64(1)] and [float64(-1)] *)

Section UnitFactor.

Lemma Prim2SF_float64_of_int_1 : Prim2SF (float64_of_int 1) = unit_sf false.
Proof. vm_compute. reflexivity. Qed.

Lemma Prim2SF_float64_of_int_m1 : Prim2SF (float64_of_int (-1)) = unit_sf true.
Proof. vm_compute. reflexivity. Qed.

Lemma digits2_pos_shift52 (m : positive) :
  Zpos (digits2_pos (m * 4503599627370496))
  = (Zpos (digits2_pos m) + 52)%Z.
Proof.
  rewrite Pos.mul_comm. lazy [Pos.mul digits2_pos].
  rewrite !Pos2Z.inj_succ. lia.
Qed.

(** The product with a unit is exact: rounding shifts the 52 zero bits
    out again and finds the mantissa it started from. *)
Lemma SF64mul_unit (s : bool) (x : spec_float) :
  valid_binary x = true →
  SF64mul x (unit_sf s) = if s then SFopp x else x.
Proof.
  destruct x as [sx|sx| |sx mx ex]; intros Hvalid.
  1-3: destruct s; try destruct sx; reflexivity.
  unfold SF64mul, SFmul, unit_sf. cbn in Hvalid.
  unfold bounded, canonical_mantissa in Hvalid.
  apply andb_prop in Hvalid as [Hcanon Hbound].
  apply Z.eqb_eq in Hcanon.
  unfold binary_round_aux, shr_fexp, Zdigits2.
  rewrite digits2_pos_shift52.
  replace (fexp prec emax (Zpos (digits2_pos mx) + 52 + (ex + -52)) - (ex + -52))%Z
    with 52%Z.
  2:{ replace (Zpos (digits2_pos mx) + 52 + (ex + -52))%Z
        with (Zpos (digits2_pos mx) + ex)%Z by lia.
      rewrite Hcanon. lia. }
  rewrite Pos.mul_comm. lazy [Pos.mul].
  cbn [shr shr_record_of_loc SpecFloat.iter_pos shr_1 orb].
  cbn [shr_m loc_of_shr_record round_nearest_even Zdigits2].
  replace (ex + -52 + 52)%Z with ex by lia.
  rewrite Hcanon, Z.sub_diag. cbn [shr shr_record_of_loc shr_m].
  rewrite Hbound. by destruct s, sx.
Qed.

Lemma mul_float64_of_int_1 (x : float) : (x * float64_of_int 1)%float = x.
Proof.
  apply Prim2SF_inj.
  rewrite FloatAxioms.mul_spec, Prim2SF_float64_of_int_1.
  apply (SF64mul_unit false), Prim2SF_valid.
Qed.

Lemma mul_float64_of_int_m1 (x : float) :
  (x * float64_of_int (-1))%float = (- x)%float.
Proof.
  apply Prim2SF_inj.
  rewrite FloatAxioms.mul_spec, FloatAxioms.opp_spec, Prim2SF_float64_of_int_m1.
  apply (SF64mul_unit true), Prim2SF_valid.
Qed.

(** Changing the sign keeps the magnitude. *)
Lemma abs_opp (x : float) : abs (- x) = abs x.
Proof.
  apply Prim2SF_inj.
  rewrite !FloatAxioms.abs_spec, FloatAxioms.opp_spec.
  by destruct (Prim2SF x).
Qed.

(** The sign of a float and of its opposite, read with the comparison
    [<?] against zero. *)
Lemma ltb_zero_opp (x : float) :
  (0 <? x)%float = true →
  (- x <? 0)%float = true ∧ (0 <? - x)%float = false
  ∧ (x <? 0)%float = false.
Proof.
  rewrite !FloatAxioms.ltb_spec, FloatAxioms.opp_spec.
  change (Prim2SF 0) with (S754_zero false).
  by destruct (Prim2SF x) as [[]|[]| |[] m e].
Qed.

End UnitFactor.

(** ** The order conversion *)

Section ConvertFacts.

Variable ParseFloat : string → result float.
Implicit Types (o : bfxv1.Order) (out : bitfinex.Order).

(** A successful conversion has parsed the five strings, and its result
    is built from their values. *)
Lemma OrderFromV1Order_Ok o out :
  OrderFromV1Order ParseFloat o = Ok out →
  ∃ ts p ap oa or,
    ParseFloat (bfxv1.Timestamp o) = Ok ts
    ∧ ParseFloat (bfxv1.Price o) = Ok p
    ∧ ParseFloat (bfxv1.AvgExecutionPrice o) = Ok ap
    ∧ ParseFloat (bfxv1.OriginalAmount o) = Ok oa
    ∧ ParseFloat (bfxv1.RemainingAmount o) = Ok or
    ∧ out = {| bitfinex.ID := bfxv1.ID o;
               bitfinex.Symbol := bfxv1.Symbol o;
               bitfinex.Hidden := bfxv1.IsHidden o;
               bitfinex.MTSCreated := int64_of_float64 ts;
               bitfinex.MTSUpdated := int64_of_float64 ts;
               bitfinex.Price := p;
               bitfinex.PriceAvg := ap;
               bitfinex.Status := statusOf o;
               bitfinex.AmountOrig := oa;
               bitfinex.Amount := (or * float64_of_int (mulOf o))%float;
               bitfinex.Type_ := typeOf o |}.
Proof.
  unfold OrderFromV1Order, mbind, result_bind.
  destruct (ParseFloat (bfxv1.Timestamp o)) as [ts|]; [|done].
  destruct (ParseFloat (bfxv1.Price o)) as [p|]; [|done].
  destruct (ParseFloat (bfxv1.AvgExecutionPrice o)) as [ap|]; [|done].
  destruct (ParseFloat (bfxv1.OriginalAmount o)) as [oa|]; [|done].
  destruct (ParseFloat (bfxv1.RemainingAmount o)) as [or|]; [|done].
  intros [= <-]. by exists ts, p, ap, oa, or.
Qed.

(** The conversion fails exactly when one of the five strings does. *)
Lemma OrderFromV1Order_isErr o :
  isErr (OrderFromV1Order ParseFloat o)
  = existsb (λ s, isErr (ParseFloat s)) (numericFields o).
Proof.
  unfold OrderFromV1Order, numericFields, mbind, result_bind. cbn.
  destruct (ParseFloat (bfxv1.Timestamp o)); [|done].
  destruct (ParseFloat (bfxv1.Price o)); [|done].
  destruct (ParseFloat (bfxv1.AvgExecutionPrice o)); [|done].
  destruct (ParseFloat (bfxv1.OriginalAmount o)); [|done].
  destruct (ParseFloat (bfxv1.RemainingAmount o)); done.
Qed.

End ConvertFacts.

(** ** Failure and success of the conversion *)

(** C7: the conversion returns an error, and no order, exactly when one
    of the five numeric strings (timestamp, price, average execution
    price, original amount, remaining amount) is refused by
    [ParseFloat]; it returns an order exactly when all five are
    accepted.  The flags, the side and the type play no part in that: an
    order neither canceled nor live gets the unset status, a side other
    than [sell] leaves the parsed remaining amount as it is, and a type
    outside the five known strings gets the unset type. *)
Theorem conversion_fails_iff_a_number_fails
    (ParseFloat : string → result float) (o : bfxv1.Order) :
  (isErr (OrderFromV1Order ParseFloat o) = true
   ↔ Exists (λ s, isErr (ParseFloat s) = true) (numericFields o))
  ∧ ((∃ out, OrderFromV1Order ParseFloat o = Ok out)
     ↔ Forall (λ s, isErr (ParseFloat s) = false) (numericFields o))
  ∧ (∀ out, OrderFromV1Order ParseFloat o = Ok out →
       (bfxv1.IsCanceled o = false → bfxv1.IsLive o = false →
        bitfinex.Status out = bitfinex.OrderStatusUnset)
       ∧ (bfxv1.Side o ≠ "sell" →
          ParseFloat (bfxv1.RemainingAmount o) = Ok (bitfinex.Amount out))
       ∧ (bfxv1.Type_ o ∉ ["market"; "limit"; "exchange limit"; "stop";
                            "trailing-stop"] →
          bitfinex.Type_ out = bitfinex.OrderTypeUnset)).
Proof.
  assert (isErr (OrderFromV1Order ParseFloat o) = true
          ↔ Exists (λ s, isErr (ParseFloat s) = true) (numericFields o)) as Hfail.
  { rewrite OrderFromV1Order_isErr. unfold numericFields. cbn.
    rewrite !Exists_cons, Exists_nil.
    destruct (isErr (ParseFloat (bfxv1.Timestamp o))),
      (isErr (ParseFloat (bfxv1.Price o))),
      (isErr (ParseFloat (bfxv1.AvgExecutionPrice o))),
      (isErr (ParseFloat (bfxv1.OriginalAmount o))),
      (isErr (ParseFloat (bfxv1.RemainingAmount o))); cbn;
      intuition discriminate. }
  split_and!; [done| |].
  - assert ((∃ out, OrderFromV1Order ParseFloat o = Ok out)
            ↔ isErr (OrderFromV1Order ParseFloat o) = false) as ->.
    { destruct (OrderFromV1Order ParseFloat o) as [out|e]; cbn.
      - split; [done | by exists out].
      - split; [by intros [out [=]] | done]. }
    rewrite OrderFromV1Order_isErr. unfold numericFields. cbn.
    rewrite !Forall_cons, Forall_nil.
    destruct (isErr (ParseFloat (bfxv1.Timestamp o))),
      (isErr (ParseFloat (bfxv1.Price o))),
      (isErr (ParseFloat (bfxv1.AvgExecutionPrice o))),
      (isErr (ParseFloat (bfxv1.OriginalAmount o))),
      (isErr (ParseFloat (bfxv1.RemainingAmount o))); cbn;
      intuition discriminate.
  - intros out (ts & p & ap & oa & or & _ & _ & _ & _ & Hor & ->)%OrderFromV1Order_Ok.
    cbn. split_and!.
    + intros Hc Hl. unfold statusOf. by rewrite Hc, Hl.
    + intros Hside. unfold mulOf.
      destruct (String.eqb_spec (bfxv1.Side o) "sell") as [Heq|_];
        [by destruct Hside|].
      rewrite mul_float64_of_int_1. exact Hor.
    + intros Htype. unfold typeOf.
      destruct (String.eqb_spec (bfxv1.Type_ o) "market") as [Heq|_];
        [destruct Htype; rewrite Heq; repeat constructor|].
      destruct (String.eqb_spec (bfxv1.Type_ o) "limit") as [Heq|_];
        [destruct Htype; rewrite Heq; repeat constructor|].
      destruct (String.eqb_spec (bfxv1.Type_ o) "exchange limit") as [Heq|_];
        [destruct Htype; rewrite Heq; repeat constructor|].
      destruct (String.eqb_spec (bfxv1.Type_ o) "stop") as [Heq|_];
        [destruct Htype; rewrite Heq; repeat constructor|].
      destruct (String.eqb_spec (bfxv1.Type_ o) "trailing-stop") as [Heq|_];
        [destruct Htype; rewrite Heq; repeat constructor|].
      reflexivity.
Qed.

Lemma conversion_fails_iff_a_number_fails_witness :
  (∃ out, OrderFromV1Order parseDecimal oddOrder = Ok out
          ∧ bitfinex.Status out = bitfinex.OrderStatusUnset
          ∧ bitfinex.Amount out = 1.5%float
          ∧ bitfinex.Type_ out = bitfinex.OrderTypeUnset)
  ∧ isErr (OrderFromV1Order parseDecimal badPriceOrder) = true.
Proof.
  split.
  - destruct (conversion_fails_iff_a_number_fails parseDecimal oddOrder)
      as (_ & Hok & Hfields).
    destruct (proj2 Hok) as [out Hout].
    { repeat constructor. }
    destruct (Hfields out Hout) as (Hstatus & Hamount & Htype).
    exists out. split_and!; [done| | |].
    + by apply Hstatus.
    + assert (parseDecimal (bfxv1.RemainingAmount oddOrder)
              = Ok (bitfinex.Amount out)) as H by by apply Hamount.
      vm_compute in H. by injection H.
    + apply Htype. intros H.
      repeat (apply elem_of_cons in H as [[=]|H]). by apply elem_of_nil in H.
  - apply (conversion_fails_iff_a_number_fails parseDecimal badPriceOrder).
    right. left. reflexivity.
Defined.

(** ** The sign of the remaining amount *)

(** C8, as stated, fails: the conversion takes no magnitude.  With the
    remaining amount written [-1.5], the sell order gets the positive
    amount [1.5] and the buy order the negative amount [-1.5]. *)
Lemma negative_remaining_amount_reverses_the_signs :
  (∃ out, OrderFromV1Order parseDecimal negativeSellOrder = Ok out
          ∧ bfxv1.Side negativeSellOrder = "sell"
          ∧ bitfinex.Amount out = 1.5%float
          ∧ (0 <? bitfinex.Amount out)%float = true)
  ∧ (∃ out, OrderFromV1Order parseDecimal negativeBuyOrder = Ok out
            ∧ bfxv1.Side negativeBuyOrder ≠ "sell"
            ∧ bitfinex.Amount out = (-1.5)%float
            ∧ (bitfinex.Amount out <? 0)%float = true).
Proof.
  split; eexists; (split; [vm_compute; reflexivity|]);
    split_and!; try (vm_compute; reflexivity).
  discriminate.
Qed.

(** C8, amended: the amount of a converted order is the parsed remaining
    amount [r], sign included, negated exactly when the side is the
    string [sell], and [r] itself for every other side, the empty string
    included; its magnitude is that of [r].  So when [r] is positive the
    amount is negative exactly for the side [sell] and positive for every
    other side; a negative [r] gives the opposite signs. *)
Theorem amount_is_negated_exactly_for_sell
    (ParseFloat : string → result float)
    (o : bfxv1.Order) (out : bitfinex.Order) :
  OrderFromV1Order ParseFloat o = Ok out →
  ∃ r, ParseFloat (bfxv1.RemainingAmount o) = Ok r
       ∧ (bfxv1.Side o = "sell" → bitfinex.Amount out = (- r)%float)
       ∧ (bfxv1.Side o ≠ "sell" → bitfinex.Amount out = r)
       ∧ abs (bitfinex.Amount out) = abs r
       ∧ ((0 <? r)%float = true →
          ((bitfinex.Amount out <? 0)%float = true ↔ bfxv1.Side o = "sell")
          ∧ ((0 <? bitfinex.Amount out)%float = true ↔ bfxv1.Side o ≠ "sell")).
Proof.
  intros (ts & p & ap & oa & or & _ & _ & _ & _ & Hor & ->)%OrderFromV1Order_Ok.
  exists or. cbn. unfold mulOf.
  destruct (String.eqb_spec (bfxv1.Side o) "sell") as [Heq|Hne].
  - rewrite mul_float64_of_int_m1. split_and!; [done|done|done|apply abs_opp|].
    intros (Hneg & Hpos & _)%ltb_zero_opp. rewrite Hneg, Hpos.
    split; split; try done.
  - rewrite mul_float64_of_int_1. split_and!; [done|done|done|done|].
    intros Hr. destruct (ltb_zero_opp or Hr) as (_ & _ & Hnot).
    rewrite Hr, Hnot. split; split; done.
Qed.

Lemma amount_is_negated_exactly_for_sell_witness :
  ∃ out, OrderFromV1Order parseDecimal sellOrder = Ok out
         ∧ bitfinex.Amount out = (-1.5)%float
         ∧ (bitfinex.Amount out <? 0)%float = true.
Proof.
  destruct (OrderFromV1Order parseDecimal sellOrder) as [out|e] eqn:Hout;
    [|vm_compute in Hout; discriminate Hout].
  exists out. split; [reflexivity|].
  destruct (amount_is_negated_exactly_for_sell parseDecimal sellOrder out Hout)
    as (r & Hr & Hsell & _ & _ & Hsign).
  vm_compute in Hr. injection Hr as <-. split; [by apply Hsell|].
  destruct Hsign as [Hneg _]; [reflexivity|]. by apply Hneg.
Defined.

(** ** Canceled and live *)

(** C10: when the canceled flag and the live flag are both set, the
    converted order has the status canceled. *)
Theorem canceled_wins_over_live
    (ParseFloat : string → result float)
    (o : bfxv1.Order) (out : bitfinex.Order) :
  bfxv1.IsCanceled o = true →
  bfxv1.IsLive o = true →
  OrderFromV1Order ParseFloat o = Ok out →
  bitfinex.Status out = bitfinex.OrderStatusCanceled.
Proof.
  intros Hc Hl (ts & p & ap & oa & or & _ & _ & _ & _ & _ & ->)%OrderFromV1Order_Ok.
  cbn. unfold statusOf. by rewrite Hc.
Qed.

Lemma canceled_wins_over_live_witness :
  ∃ out, OrderFromV1Order parseDecimal canceledLiveOrder = Ok out
         ∧ bitfinex.Status out = bitfinex.OrderStatusCanceled.
Proof.
  destruct (OrderFromV1Order parseDecimal canceledLiveOrder) as [out|e] eqn:Hout;
    [|vm_compute in Hout; discriminate Hout].
  exists out. split; [reflexivity|].
  apply (canceled_wins_over_live parseDecimal canceledLiveOrder out);
    [reflexivity | reflexivity | exact Hout].
Defined.

(** ** More on the parser: what a line can and cannot change *)

(** The lines between two headers change no counterparty but the current
    one: after parsing lines that hold no header, every counterparty other
    than the one the cursor names has the symbol set it had. *)
Theorem section_lines_touch_current_only
    (lines : list string) (f : FileSymbology) (cp : string) :
  Forall (λ line, isHeader line = false) lines →
  cp ≠ counterparty f →
  counterparty (parseLines f lines) = counterparty f
  ∧ counterparties (parseLines f lines) !! cp = counterparties f !! cp.
Proof.
  revert f. induction lines as [|line lines IH]; intros f Hall Hcp; [done|].
  inversion_clear Hall as [|? ? Hline Hrest].
  change (parseLines f (line :: lines)) with (parseLines (parse f line) lines).
  pose proof (parse_not_header_cursor f line Hline) as Hcur.
  destruct (IH (parse f line) Hrest) as [IH1 IH2]; [by rewrite Hcur|].
  rewrite IH1, IH2, Hcur. split; [done|].
  unfold parse. rewrite Hline.
  destruct (Split line "=") as [|s0 [|s1 rest]]; [done..|].
  by apply record_fields_other.
Qed.

Lemma section_lines_touch_current_only_witness :
  let f := NewFileSymbology ["[A]"; "tBTCUSD=BXY"; "[B]"] in
  counterparty (parseLines f ["tETHUSD=EXY"; "passthrough=true"; "junk"]) = "B"
  ∧ counterparties (parseLines f ["tETHUSD=EXY"; "passthrough=true"; "junk"]) !! "A"
    = counterparties f !! "A".
Proof.
  apply (section_lines_touch_current_only
           ["tETHUSD=EXY"; "passthrough=true"; "junk"]
           (NewFileSymbology ["[A]"; "tBTCUSD=BXY"; "[B]"]) "A").
  - repeat constructor.
  - vm_compute. discriminate.
Defined.

(** Parsing never deletes: through any further lines a counterparty of
    the table remains one, a passthrough flag that is set remains set, and
    every Bitfinex symbol of its set remains mapped (to its old or to a
    newer counterparty symbol). *)
Theorem parsing_never_deletes
    (lines : list string) (f : FileSymbology) (cp : string) (s : symbolset) :
  counterparties f !! cp = Some s →
  ∃ s', counterparties (parseLines f lines) !! cp = Some s'
        ∧ (passthrough s = true → passthrough s' = true)
        ∧ (∀ k, is_Some (symbols s !! k) → is_Some (symbols s' !! k)).
Proof.
  revert f s. induction lines as [|line lines IH]; intros f s Hcp.
  - exists s. by cbn.
  - destruct (parse_keeps f line cp s Hcp) as (s1 & H1 & Hp1 & Hk1).
    destruct (IH (parse f line) s1 H1) as (s' & H' & Hp' & Hk').
    exists s'. split; [done|]. split; [tauto|].
    intros k Hk. by apply Hk', Hk1.
Qed.

Lemma parsing_never_deletes_witness :
  let f := NewFileSymbology ["[R]"; "tBTCUSD=BXY"; "passthrough=true"] in
  ∃ s', counterparties
          (parseLines f ["passthrough=false"; "[S]"; "x=y"; "[R]"; "tBTCUSD=Z"])
        !! "R" = Some s'
        ∧ passthrough s' = true
        ∧ is_Some (symbols s' !! "tBTCUSD").
Proof.
  destruct (parsing_never_deletes
              ["passthrough=false"; "[S]"; "x=y"; "[R]"; "tBTCUSD=Z"]
              (NewFileSymbology ["[R]"; "tBTCUSD=BXY"; "passthrough=true"]) "R"
              {| symbols := {["tBTCUSD" := "BXY"]}; passthrough := true |})
    as (s' & Hs' & Hp & Hk).
  - vm_compute. reflexivity.
  - exists s'. split; [exact Hs'|]. split; [by apply Hp|].
    apply Hk. cbn. rewrite lookup_singleton_eq. by eexists.
Defined.

(** Blank lines, comments and other lines that hold no [=] and are no
    header are skipped: the table and the cursor are as before. *)
Theorem line_without_delimiter_is_skipped (f : FileSymbology) (line : string) :
  count line "=" = 0 →
  isHeader line = false →
  parse f line = f.
Proof.
  intros Hcount Hhead. unfold parse.
  by rewrite Hhead, (Split_no_sep _ _ Hcount).
Qed.

Lemma line_without_delimiter_is_skipped_witness :
  parse (NewFileSymbology ["[Bloomberg]"; "tBTCUSD=BXY"]) "# symbols of Bloomberg"
  = NewFileSymbology ["[Bloomberg]"; "tBTCUSD=BXY"].
Proof.
  apply (line_without_delimiter_is_skipped
           (NewFileSymbology ["[Bloomberg]"; "tBTCUSD=BXY"])
           "# symbols of Bloomberg"); reflexivity.
Defined.

(** ** More on the parser: mapping lines, passthrough lines, headers *)

(** A line [l=r] without further [=] has the two fields [l] and [r]. *)
Lemma Split_pair (l r : string) :
  count l "=" = 0 → count r "=" = 0 →
  Split (l ++ "=" ++ r) "=" = [l; r].
Proof.
  intros Hl Hr. change ("=" ++ r) with (String "="%char r).
  by rewrite (Split_app _ _ _ Hl), (Split_no_sep _ _ Hr).
Qed.

(** Lower-casing neither makes nor removes a [=] or a [[]. *)
Lemma lower_byte_eqb (c d : ascii) :
  d = "="%char ∨ d = "["%char →
  Ascii.eqb (lower_byte c) d = Ascii.eqb c d.
Proof.
  intros [->| ->];
    destruct c as [[] [] [] [] [] [] [] []]; vm_compute; reflexivity.
Qed.

Lemma count_ToLower (s : string) : count (ToLower s) "=" = count s "=".
Proof.
  induction s as [|c s IH]; cbn; [done|].
  rewrite lower_byte_eqb by (by left). by rewrite IH.
Qed.

(** A line whose first byte is not [[] is no header. *)
Lemma isHeader_first_byte (c : ascii) (s : string) :
  Ascii.eqb c "[" = false → isHeader (String c s) = false.
Proof.
  intros Hc. unfold isHeader, HasPrefix, slice. cbn.
  by rewrite Hc.
Qed.

Lemma passthrough_key_no_header (l rest : string) :
  ToLower l = "passthrough" → isHeader (l ++ rest) = false.
Proof.
  destruct l as [|c l]; [done|]. cbn. intros [= Hc _].
  apply isHeader_first_byte.
  rewrite <- (lower_byte_eqb c "[") by (by right). by rewrite Hc.
Qed.

(** The passthrough line: whatever the case of its letters, the line
    [passthrough=true] sets the flag of the current counterparty
    (creating its symbol set when there is none), adds no symbol, and
    leaves the cursor; both lookups then return their argument for that
    counterparty. *)
Theorem passthrough_line_sets_flag_only
    (range : gmap string string → list (string * string))
    (f : FileSymbology) (l r : string) :
  ToLower l = "passthrough" →
  ToLower r = "true" →
  let f' := parse f (l ++ "=" ++ r) in
  let old := default newSymbolset (counterparties f !! counterparty f) in
  counterparty f' = counterparty f
  ∧ counterparties f' !! counterparty f
    = Some {| symbols := symbols old; passthrough := true |}
  ∧ (∀ s, ToBitfinex range f' s (counterparty f) = (s, None)
          ∧ FromBitfinex f' s (counterparty f) = (s, None)).
Proof.
  intros Hl Hr f' old.
  assert (count l "=" = 0) as Hcl by by rewrite <- count_ToLower, Hl.
  assert (count r "=" = 0) as Hcr by by rewrite <- count_ToLower, Hr.
  assert (f' = record_fields f l r) as ->.
  { subst f'. unfold parse.
    by rewrite (passthrough_key_no_header _ _ Hl), (Split_pair _ _ Hcl Hcr). }
  assert (counterparties (record_fields f l r) !! counterparty f
          = Some {| symbols := symbols old; passthrough := true |}) as Hentry.
  { unfold record_fields. cbn. rewrite lookup_insert_eq, Hl, Hr. done. }
  split_and!; [done|done|].
  intros s. unfold ToBitfinex, FromBitfinex. by rewrite Hentry.
Qed.

Lemma passthrough_line_sets_flag_only_witness :
  let f := NewFileSymbology ["[Reuters]"; "tBTCUSD=BXY"] in
  let f' := parse f ("PassThrough" ++ "=" ++ "TRUE") in
  counterparty f' = "Reuters"
  ∧ counterparties f' !! "Reuters"
    = Some {| symbols := {["tBTCUSD" := "BXY"]}; passthrough := true |}
  ∧ (∀ s, ToBitfinex map_to_list f' s "Reuters" = (s, None)
          ∧ FromBitfinex f' s "Reuters" = (s, None)).
Proof.
  apply (passthrough_line_sets_flag_only map_to_list
           (NewFileSymbology ["[Reuters]"; "tBTCUSD=BXY"]) "PassThrough" "TRUE");
    reflexivity.
Defined.

(** Last write wins: of two mapping lines for the same Bitfinex symbol in
    one section, only the later one counts.  Parsing [l=r1] and then
    [l=r2] gives the table that [l=r2] alone gives, and [FromBitfinex]
    answers [r2] unless the section is passthrough. *)
Theorem later_mapping_line_wins (f : FileSymbology) (l r1 r2 : string) :
  count l "=" = 0 → count r1 "=" = 0 → count r2 "=" = 0 →
  isHeader (l ++ "=" ++ r1) = false →
  isHeader (l ++ "=" ++ r2) = false →
  ToLower l ≠ "passthrough" →
  let f' := parse (parse f (l ++ "=" ++ r1)) (l ++ "=" ++ r2) in
  f' = parse f (l ++ "=" ++ r2)
  ∧ ∃ s, counterparties f' !! counterparty f = Some s
         ∧ symbols s !! l = Some r2
         ∧ (passthrough s = false →
            FromBitfinex f' l (counterparty f) = (r2, None)).
Proof.
  intros Hl Hr1 Hr2 Hh1 Hh2 Hpass f'.
  assert (String.eqb (ToLower l) "passthrough" = false) as Hno
    by by apply String.eqb_neq.
  assert (∀ r g, count r "=" = 0 → isHeader (l ++ "=" ++ r) = false →
          parse g (l ++ "=" ++ r)
          = {| counterparty := counterparty g;
               counterparties :=
                 <[counterparty g :=
                     set (default newSymbolset (counterparties g !! counterparty g)) l r]>
                   (counterparties g) |}) as Hparse.
  { intros r g Hr Hh. unfold parse. rewrite Hh, (Split_pair _ _ Hl Hr).
    unfold record_fields. by rewrite Hno. }
  assert (f' = parse f (l ++ "=" ++ r2)) as Heq.
  { subst f'. rewrite !Hparse by done. cbn. f_equal.
    rewrite lookup_insert_eq, insert_insert_eq. cbn. f_equal.
    unfold set. cbn. f_equal. apply insert_insert_eq. }
  split; [done|]. rewrite Heq, (Hparse r2 f) by done. cbn.
  eexists. split; [apply lookup_insert_eq|].
  split; [cbn; apply lookup_insert_eq|].
  cbn. intros Hp. unfold FromBitfinex, get. cbn.
  rewrite lookup_insert_eq. cbn. by rewrite Hp, lookup_insert_eq.
Qed.

Lemma later_mapping_line_wins_witness :
  let f := NewFileSymbology ["[Bloomberg]"] in
  let f' := parse (parse f ("tBTCUSD" ++ "=" ++ "OLD")) ("tBTCUSD" ++ "=" ++ "BXY") in
  f' = parse f ("tBTCUSD" ++ "=" ++ "BXY")
  ∧ FromBitfinex f' "tBTCUSD" "Bloomberg" = ("BXY", None).
Proof.
  destruct (later_mapping_line_wins
              (NewFileSymbology ["[Bloomberg]"]) "tBTCUSD" "OLD" "BXY")
    as (Heq & s & Hs & _ & Hfrom); try reflexivity.
  - vm_compute. discriminate.
  - split; [exact Heq|]. apply Hfrom.
    vm_compute in Hs. injection Hs as <-. reflexivity.
Defined.

(** ** More on headers *)

(** A header [[name]] moves the cursor to [name], whatever [name] is: it
    may be empty, and it may hold brackets or [=]. *)
Theorem header_moves_cursor (f : FileSymbology) (name : string) :
  counterparty (parse f ("[" ++ name ++ "]")) = name.
Proof.
  rewrite parse_cursor, isHeader_brackets. apply slice_brackets.
Qed.

(** A section can be opened again: a header [[N]] followed by the mapping
    line [k=v] adds the pair to the symbol set [N] already has (and to a
    new one when it has none), keeping the flag and the other pairs. *)
Theorem reopened_section_keeps_its_entries
    (f : FileSymbology) (N k v : string) :
  count N "=" = 0 → count k "=" = 0 → count v "=" = 0 →
  isHeader (k ++ "=" ++ v) = false →
  ToLower k ≠ "passthrough" →
  let old := default newSymbolset (counterparties f !! N) in
  ∃ s, counterparties (parseLines f ["[" +:+ N +:+ "]"; k +:+ "=" +:+ v]) !! N
       = Some s
       ∧ passthrough s = passthrough old
       ∧ symbols s !! k = Some v
       ∧ (∀ k', k' ≠ k → symbols s !! k' = symbols old !! k').
Proof.
  intros HN Hk Hv Hhead Hpass old. cbn.
  rewrite (parse_header_no_eq _ _ HN). unfold parse.
  rewrite Hhead, (Split_pair _ _ Hk Hv). unfold record_fields. cbn.
  rewrite (proj2 (String.eqb_neq _ _) Hpass). cbn.
  rewrite lookup_insert_eq. eexists. split; [done|]. cbn.
  split_and!; [done|apply lookup_insert_eq|].
  intros k' Hk'. by rewrite lookup_insert_ne.
Qed.

Lemma reopened_section_keeps_its_entries_witness :
  let f := NewFileSymbology ["[A]"; "tBTCUSD=BXY"; "[B]"; "tBTCUSD=Q"] in
  ∃ s, counterparties (parseLines f ["[" +:+ "A" +:+ "]"; "tETHUSD" +:+ "=" +:+ "EXY"])
       !! "A" = Some s
       ∧ symbols s !! "tETHUSD" = Some "EXY"
       ∧ symbols s !! "tBTCUSD" = Some "BXY".
Proof.
  destruct (reopened_section_keeps_its_entries
              (NewFileSymbology ["[A]"; "tBTCUSD=BXY"; "[B]"; "tBTCUSD=Q"])
              "A" "tETHUSD" "EXY")
    as (s & Hs & _ & Hnew & Hold); try reflexivity.
  - vm_compute. discriminate.
  - exists s. split; [exact Hs|]. split; [exact Hnew|].
    rewrite (Hold "tBTCUSD") by discriminate.
    vm_compute. reflexivity.
Defined.

(** A header is not kept from the mapping branch: the header [[l=r]]
    moves the cursor to [l=r] and also records, under that counterparty,
    the pair made of its two fields, brackets included. *)
Theorem header_with_delimiter_records_a_pair
    (f : FileSymbology) (l r : string) :
  count l "=" = 0 → count r "=" = 0 →
  let name := l ++ "=" ++ r in
  let f' := parse f ("[" ++ name ++ "]") in
  counterparty f' = name
  ∧ counterparties f' !! name
    = Some (set (default newSymbolset (counterparties f !! name))
              ("[" ++ l) (r ++ "]")).
Proof.
  intros Hl Hr name f'. split.
  { subst f'. rewrite parse_cursor, isHeader_brackets. apply slice_brackets. }
  subst f' name. unfold parse. rewrite isHeader_brackets, slice_brackets.
  assert (Split ("[" ++ (l ++ "=" ++ r) ++ "]") "=" = ["[" ++ l; r ++ "]"]) as ->.
  { rewrite <- (Split_pair ("[" ++ l) (r ++ "]")).
    - f_equal. by rewrite !string_app_assoc.
    - by rewrite count_app, Hl.
    - by rewrite count_app, Hr. }
  unfold record_fields. cbn. by rewrite lookup_insert_eq.
Qed.

Lemma header_with_delimiter_records_a_pair_witness :
  let f' := parse emptySymbology ("[" ++ ("a" ++ "=" ++ "b") ++ "]") in
  counterparty f' = "a" ++ "=" ++ "b"
  ∧ counterparties f' !! ("a" ++ "=" ++ "b")
    = Some (set (default newSymbolset (counterparties emptySymbology !! ("a" ++ "=" ++ "b")))
              ("[" ++ "a") ("b" ++ "]")).
Proof.
  apply (header_with_delimiter_records_a_pair emptySymbology "a" "b");
    reflexivity.
Defined.

(** ** More on the lookups *)

(** What [ToBitfinex] finds, [FromBitfinex] translates back: when
    [ToBitfinex symbol cp] succeeds with [bfx], [FromBitfinex bfx cp]
    succeeds with [symbol], for passthrough counterparties and the others,
    under every iteration order. *)
Theorem to_bitfinex_then_from_bitfinex
    (range : gmap string string → list (string * string))
    (f : FileSymbology) (symbol cp bfx : string) :
  IterationOrder range →
  ToBitfinex range f symbol cp = (bfx, None) →
  FromBitfinex f bfx cp = (symbol, None).
Proof.
  intros Hrange. unfold ToBitfinex, FromBitfinex, get.
  destruct (counterparties f !! cp) as [symset|]; [|done].
  destruct (passthrough symset); [by intros [= ->]|].
  destruct (scan (range (symbols symset)) symbol) as [k|] eqn:Hscan; [|done].
  intros [= ->]. by rewrite (scan_range_Some range _ _ _ Hrange Hscan).
Qed.

Lemma to_bitfinex_then_from_bitfinex_witness :
  let f := NewFileSymbology ["[Bloomberg]"; "tBTCUSD=BXY"; "tETHUSD=EXY"] in
  FromBitfinex f "tETHUSD" "Bloomberg" = ("EXY", None).
Proof.
  apply (to_bitfinex_then_from_bitfinex map_to_list
           (NewFileSymbology ["[Bloomberg]"; "tBTCUSD=BXY"; "tETHUSD=EXY"])
           "EXY" "Bloomberg" "tETHUSD").
  - apply IterationOrder_map_to_list.
  - vm_compute. reflexivity.
Defined.

(** The two lookups fail for the same counterparties and report them the
    same way, a lookup that fails returns the empty string, and one that
    succeeds on a counterparty without passthrough returns a symbol of its
    set: [ToBitfinex] a key, [FromBitfinex] a value. *)
Theorem lookup_outcomes
    (range : gmap string string → list (string * string))
    (f : FileSymbology) (symbol cp : string) :
  IterationOrder range →
  (snd (ToBitfinex range f symbol cp) = Some (ErrCounterparty cp)
   ↔ counterparties f !! cp = None)
  ∧ (snd (FromBitfinex f symbol cp) = Some (ErrCounterparty cp)
     ↔ counterparties f !! cp = None)
  ∧ (snd (ToBitfinex range f symbol cp) ≠ None →
     fst (ToBitfinex range f symbol cp) = "")
  ∧ (snd (FromBitfinex f symbol cp) ≠ None →
     fst (FromBitfinex f symbol cp) = "")
  ∧ (∀ symset out,
       counterparties f !! cp = Some symset → passthrough symset = false →
       (ToBitfinex range f symbol cp = (out, None)
        → symbols symset !! out = Some symbol)
       ∧ (FromBitfinex f symbol cp = (out, None)
          → symbols symset !! symbol = Some out)).
Proof.
  intros Hrange. unfold ToBitfinex, FromBitfinex, get.
  destruct (counterparties f !! cp) as [symset|] eqn:Hcp; cbn.
  2:{ split_and!; try done. }
  destruct (passthrough symset) eqn:Hp; cbn.
  { split_and!; try done. intros ? ? [= <-]. by rewrite Hp. }
  destruct (scan (range (symbols symset)) symbol) as [k|] eqn:Hscan;
    destruct (symbols symset !! symbol) as [v|] eqn:Hget; cbn;
    (split_and!; try done; intros ss out [= <-] _;
     split; intros [= <-]; try done;
     by apply (scan_range_Some range)).
Qed.

Lemma lookup_outcomes_witness :
  let f := NewFileSymbology ["[Bloomberg]"; "tBTCUSD=BXY"] in
  snd (ToBitfinex map_to_list f "BXY" "Reuters") = Some (ErrCounterparty "Reuters")
  ∧ fst (FromBitfinex f "ZZZ" "Bloomberg") = "".
Proof.
  destruct (lookup_outcomes map_to_list
              (NewFileSymbology ["[Bloomberg]"; "tBTCUSD=BXY"]) "BXY" "Reuters"
              IterationOrder_map_to_list) as (Hcp & _).
  destruct (lookup_outcomes map_to_list
              (NewFileSymbology ["[Bloomberg]"; "tBTCUSD=BXY"]) "ZZZ" "Bloomberg"
              IterationOrder_map_to_list) as (_ & _ & _ & Hempty & _).
  split.
  - apply Hcp. vm_compute. reflexivity.
  - apply Hempty. vm_compute. discriminate.
Defined.

(** The order in which the map is visited decides at most which of
    several matching Bitfinex symbols [ToBitfinex] returns: two iteration
    orders agree on whether the lookup fails and on the error, and they
    agree on the whole result when at most one Bitfinex symbol of the
    counterparty is mapped to the symbol asked. *)
Theorem iteration_order_matters_only_for_shared_values
    (range1 range2 : gmap string string → list (string * string))
    (f : FileSymbology) (symbol cp : string) :
  IterationOrder range1 →
  IterationOrder range2 →
  snd (ToBitfinex range1 f symbol cp) = snd (ToBitfinex range2 f symbol cp)
  ∧ ((∀ symset k1 k2,
        counterparties f !! cp = Some symset →
        symbols symset !! k1 = Some symbol →
        symbols symset !! k2 = Some symbol → k1 = k2) →
     ToBitfinex range1 f symbol cp = ToBitfinex range2 f symbol cp).
Proof.
  intros H1 H2. unfold ToBitfinex.
  destruct (counterparties f !! cp) as [symset|] eqn:Hcp; [|done].
  destruct (passthrough symset); [done|].
  destruct (scan (range1 (symbols symset)) symbol) as [k1|] eqn:Hs1;
    destruct (scan (range2 (symbols symset)) symbol) as [k2|] eqn:Hs2; cbn.
  - split; [done|]. intros Huniq.
    by rewrite (Huniq symset k1 k2 eq_refl
                  (scan_range_Some range1 _ _ _ H1 Hs1)
                  (scan_range_Some range2 _ _ _ H2 Hs2)).
  - apply (scan_range_Some range1) in Hs1; [|done].
    destruct (scan_range_is_Some range2 _ _ _ H2 Hs1) as [? Hsome].
    congruence.
  - apply (scan_range_Some range2) in Hs2; [|done].
    destruct (scan_range_is_Some range1 _ _ _ H1 Hs2) as [? Hsome].
    congruence.
  - done.
Qed.

Lemma iteration_order_matters_only_for_shared_values_witness :
  let f := NewFileSymbology ["[Bloomberg]"; "tBTCUSD=BXY"; "tETHUSD=EXY"] in
  ToBitfinex map_to_list f "BXY" "Bloomberg"
  = ToBitfinex (λ m, reverse (map_to_list m)) f "BXY" "Bloomberg".
Proof.
  apply (iteration_order_matters_only_for_shared_values
           map_to_list (λ m, reverse (map_to_list m))
           (NewFileSymbology ["[Bloomberg]"; "tBTCUSD=BXY"; "tETHUSD=EXY"])
           "BXY" "Bloomberg").
  - apply IterationOrder_map_to_list.
  - intros m. apply reverse_Permutation.
  - intros symset k1 k2 Hs Hk1 Hk2.
    assert (counterparties
              (NewFileSymbology ["[Bloomberg]"; "tBTCUSD=BXY"; "tETHUSD=EXY"])
            !! "Bloomberg"
            = Some (set (set newSymbolset "tBTCUSD" "BXY") "tETHUSD" "EXY"))
      as Htable by (vm_compute; reflexivity).
    rewrite Htable in Hs. injection Hs as <-. cbn in Hk1, Hk2.
    apply lookup_insert_Some in Hk1 as [[_ [=]]|[_ Hk1]].
    apply lookup_insert_Some in Hk1 as [[<- _]|[_ Hk1]];
      [|by rewrite lookup_empty in Hk1].
    apply lookup_insert_Some in Hk2 as [[_ [=]]|[_ Hk2]].
    apply lookup_insert_Some in Hk2 as [[<- _]|[_ Hk2]];
      [reflexivity | by rewrite lookup_empty in Hk2].
Defined.

(** [ToBitfinex] logs exactly when it fails: its result is not changed by
    the logging, a failure writes one line, the text of the error it
    returns, and a success writes nothing. *)
Theorem to_bitfinex_logs_its_errors
    (range : gmap string string → list (string * string))
    (f : FileSymbology) (symbol cp : string) :
  fst (ToBitfinexLogged range f symbol cp) = ToBitfinex range f symbol cp
  ∧ snd (ToBitfinexLogged range f symbol cp)
    = match snd (ToBitfinex range f symbol cp) with
      | Some e => [errorText e]
      | None => []
      end.
Proof.
  unfold ToBitfinexLogged, ToBitfinex.
  destruct (counterparties f !! cp) as [symset|]; [|done].
  destruct (passthrough symset); [done|].
  by destruct (scan (range (symbols symset)) symbol).
Qed.

(** ** More on the order conversion *)

(** The error of a failed conversion is the error of the first of the
    five strings, in the order timestamp, price, average execution price,
    original amount, remaining amount, that [ParseFloat] refuses. *)
Theorem first_refused_number_is_reported
    (ParseFloat : string → result float) (o : bfxv1.Order) (e : NumError) :
  OrderFromV1Order ParseFloat o = Err e
  ↔ ∃ before s after,
      numericFields o = (before ++ s :: after)%list
      ∧ Forall (λ t, isErr (ParseFloat t) = false) before
      ∧ ParseFloat s = Err e.
Proof.
  unfold OrderFromV1Order, numericFields, mbind, result_bind. split.
  - destruct (ParseFloat (bfxv1.Timestamp o)) as [ts|e1] eqn:H1.
    2:{ intros [= ->]. exists [], (bfxv1.Timestamp o). eexists. by split_and!. }
    destruct (ParseFloat (bfxv1.Price o)) as [p|e2] eqn:H2.
    2:{ intros [= ->]. exists [bfxv1.Timestamp o], (bfxv1.Price o). eexists.
        split_and!; [done| |done]. repeat constructor; by rewrite ?H1. }
    destruct (ParseFloat (bfxv1.AvgExecutionPrice o)) as [ap|e3] eqn:H3.
    2:{ intros [= ->].
        exists [bfxv1.Timestamp o; bfxv1.Price o], (bfxv1.AvgExecutionPrice o).
        eexists.
        split_and!; [done| |done]. repeat constructor; by rewrite ?H1, ?H2. }
    destruct (ParseFloat (bfxv1.OriginalAmount o)) as [oa|e4] eqn:H4.
    2:{ intros [= ->].
        exists [bfxv1.Timestamp o; bfxv1.Price o; bfxv1.AvgExecutionPrice o],
          (bfxv1.OriginalAmount o). eexists.
        split_and!; [done| |done].
        repeat constructor; by rewrite ?H1, ?H2, ?H3. }
    destruct (ParseFloat (bfxv1.RemainingAmount o)) as [or|e5] eqn:H5; [done|].
    intros [= ->].
    exists [bfxv1.Timestamp o; bfxv1.Price o; bfxv1.AvgExecutionPrice o;
            bfxv1.OriginalAmount o], (bfxv1.RemainingAmount o), [].
    split_and!; [done| |done].
    repeat constructor; by rewrite ?H1, ?H2, ?H3, ?H4.
  - intros (before & s & after & Hsplit & Hok & Herr).
    destruct before as [|b1 [|b2 [|b3 [|b4 [|b5 before]]]]];
      cbn in Hsplit; simplify_eq; repeat (apply Forall_cons in Hok as [? Hok]).
    + by rewrite Herr.
    + destruct (ParseFloat (bfxv1.Timestamp o)); [|done]. by rewrite Herr.
    + destruct (ParseFloat (bfxv1.Timestamp o)); [|done].
      destruct (ParseFloat (bfxv1.Price o)); [|done]. by rewrite Herr.
    + destruct (ParseFloat (bfxv1.Timestamp o)); [|done].
      destruct (ParseFloat (bfxv1.Price o)); [|done].
      destruct (ParseFloat (bfxv1.AvgExecutionPrice o)); [|done].
      by rewrite Herr.
    + destruct (ParseFloat (bfxv1.Timestamp o)); [|done].
      destruct (ParseFloat (bfxv1.Price o)); [|done].
      destruct (ParseFloat (bfxv1.AvgExecutionPrice o)); [|done].
      destruct (ParseFloat (bfxv1.OriginalAmount o)); [|done].
      by rewrite Herr.
    + by destruct before.
Qed.

(** What a successful conversion carries over: identifier, symbol and
    hidden flag unchanged; the two timestamps equal, both the integer part
    of the parsed timestamp, within the range of [int64]; price, average
    price and original amount as parsed. *)
Theorem converted_order_carries_the_fields
    (ParseFloat : string → result float)
    (o : bfxv1.Order) (out : bitfinex.Order) :
  OrderFromV1Order ParseFloat o = Ok out →
  bitfinex.ID out = bfxv1.ID o
  ∧ bitfinex.Symbol out = bfxv1.Symbol o
  ∧ bitfinex.Hidden out = bfxv1.IsHidden o
  ∧ bitfinex.MTSUpdated out = bitfinex.MTSCreated out
  ∧ (∃ ts, ParseFloat (bfxv1.Timestamp o) = Ok ts
           ∧ bitfinex.MTSCreated out = int64_of_float64 ts)
  ∧ (- 2 ^ 63 ≤ bitfinex.MTSCreated out < 2 ^ 63)%Z
  ∧ ParseFloat (bfxv1.Price o) = Ok (bitfinex.Price out)
  ∧ ParseFloat (bfxv1.AvgExecutionPrice o) = Ok (bitfinex.PriceAvg out)
  ∧ ParseFloat (bfxv1.OriginalAmount o) = Ok (bitfinex.AmountOrig out).
Proof.
  intros (ts & p & ap & oa & or & Hts & Hp & Hap & Hoa & _ & ->)%OrderFromV1Order_Ok.
  cbn. split_and!; try done; [by exists ts| |];
    unfold int64_of_float64; destruct (Prim2SF ts) as [| | |s m e]; try done;
    destruct (_ && _) eqn:Hrange; try done;
    apply andb_prop in Hrange as [H1%Z.leb_le H2%Z.ltb_lt]; done.
Qed.

Lemma converted_order_carries_the_fields_witness :
  ∃ out, OrderFromV1Order parseDecimal sellOrder = Ok out
         ∧ bitfinex.ID out = 448364249%Z
         ∧ bitfinex.MTSUpdated out = bitfinex.MTSCreated out.
Proof.
  destruct (OrderFromV1Order parseDecimal sellOrder) as [out|e] eqn:Hout;
    [|vm_compute in Hout; discriminate Hout].
  exists out. split; [reflexivity|].
  destruct (converted_order_carries_the_fields parseDecimal sellOrder out Hout)
    as (Hid & _ & _ & Hmts & _).
  split; [exact Hid | exact Hmts].
Defined.

(** The two switches are exact: the status is canceled exactly for a
    canceled order, active exactly for a live order that is not canceled,
    and each canonical type is given to exactly one type string, compared
    byte for byte. *)
Theorem status_and_type_are_exact
    (ParseFloat : string → result float)
    (o : bfxv1.Order) (out : bitfinex.Order) :
  OrderFromV1Order ParseFloat o = Ok out →
  (bitfinex.Status out = bitfinex.OrderStatusCanceled
   ↔ bfxv1.IsCanceled o = true)
  ∧ (bitfinex.Status out = bitfinex.OrderStatusActive
     ↔ bfxv1.IsCanceled o = false ∧ bfxv1.IsLive o = true)
  ∧ (bitfinex.Type_ out = bitfinex.OrderTypeMarket ↔ bfxv1.Type_ o = "market")
  ∧ (bitfinex.Type_ out = bitfinex.OrderTypeLimit ↔ bfxv1.Type_ o = "limit")
  ∧ (bitfinex.Type_ out = bitfinex.OrderTypeExchangeLimit
     ↔ bfxv1.Type_ o = "exchange limit")
  ∧ (bitfinex.Type_ out = bitfinex.OrderTypeStop ↔ bfxv1.Type_ o = "stop")
  ∧ (bitfinex.Type_ out = bitfinex.OrderTypeTrailingStop
     ↔ bfxv1.Type_ o = "trailing-stop").
Proof.
  intros (ts & p & ap & oa & or & _ & _ & _ & _ & _ & ->)%OrderFromV1Order_Ok.
  cbn. unfold statusOf, typeOf.
  split_and!.
  1,2: destruct (bfxv1.IsCanceled o), (bfxv1.IsLive o); intuition discriminate.
  all: destruct (String.eqb_spec (bfxv1.Type_ o) "market") as [->|?];
    [intuition discriminate|];
    destruct (String.eqb_spec (bfxv1.Type_ o) "limit") as [->|?];
    [intuition discriminate|];
    destruct (String.eqb_spec (bfxv1.Type_ o) "exchange limit") as [->|?];
    [intuition discriminate|];
    destruct (String.eqb_spec (bfxv1.Type_ o) "stop") as [->|?];
    [intuition discriminate|];
    destruct (String.eqb_spec (bfxv1.Type_ o) "trailing-stop") as [->|?];
    intuition discriminate.
Qed.

Lemma status_and_type_are_exact_witness :
  ∃ out, OrderFromV1Order parseDecimal sellOrder = Ok out
         ∧ bitfinex.Status out = bitfinex.OrderStatusActive
         ∧ bitfinex.Type_ out = bitfinex.OrderTypeExchangeLimit.
Proof.
  destruct (OrderFromV1Order parseDecimal sellOrder) as [out|e] eqn:Hout;
    [|vm_compute in Hout; discriminate Hout].
  exists out. split; [reflexivity|].
  destruct (status_and_type_are_exact parseDecimal sellOrder out Hout)
    as (_ & Hactive & _ & _ & Hexl & _).
  split; [apply Hactive; split; reflexivity | apply Hexl; reflexivity].
Defined.

(** ** The helpers on [interface{}] *)

(** Each helper returns the value it is given when the dynamic type is
    its own, and no value is taken by two of them: whatever the argument,
    at most one of the four helpers returns something else than its zero
    value.  In particular an [int64] is not converted to a [float64]. *)
Theorem helpers_select_by_dynamic_type (i : any) :
  (∀ r, Int64OrZero (AnyInt64 r) = r)
  ∧ (∀ r, Float64OrZero (AnyFloat64 r) = r)
  ∧ (∀ r, BoolOrFalse (AnyBool r) = r)
  ∧ (∀ r, StringOrEmpty (AnyString r) = r)
  ∧ (Int64OrZero i ≠ 0%Z →
     Float64OrZero i = 0%float ∧ BoolOrFalse i = false ∧ StringOrEmpty i = "")
  ∧ (Float64OrZero i ≠ 0%float →
     Int64OrZero i = 0%Z ∧ BoolOrFalse i = false ∧ StringOrEmpty i = "")
  ∧ (BoolOrFalse i = true →
     Int64OrZero i = 0%Z ∧ Float64OrZero i = 0%float ∧ StringOrEmpty i = "")
  ∧ (StringOrEmpty i ≠ "" →
     Int64OrZero i = 0%Z ∧ Float64OrZero i = 0%float ∧ BoolOrFalse i = false).
Proof. destruct i; cbn; split_and!; done. Qed.
